(** * StrengthTracker: the rendering runtime (myreact.js) and the loaders of app.js

    A shallow embedding of the small React-like library the application is
    built on ([useState], [createElement], [appendElement], [render]) and of
    the two loaders [loadEntries] and [loadPlan], followed by the properties
    proved about them. *)

From Stdlib Require Import ZArith String Ascii List Lia DecimalString.
From stdpp Require Import base option list gmap strings.

Local Open Scope string_scope.
Local Open Scope list_scope.

(** ** JavaScript values

    Numbers are the integers (the values a state counter takes); a plain
    object is the list of its own enumerable properties in enumeration
    order; a function is the name of its code with the values it captured;
    the closure [setState] that [useState] returns is the slot index it
    captured. *)

Definition fname := string.

Set Warnings "-register-all".

Inductive value : Type :=
| VUndefined
| VNull
| VBool (b : bool)
| VNum (n : Z)
| VStr (s : string)
| VArr (items : list value)
| VObj (fields : list (string * value))
| VFun (code : fname) (captured : list value)
| VSetter (stateIndex : nat).

Section value_induction.
Variable P : value -> Prop.
Hypothesis Hundef : P VUndefined.
Hypothesis Hnull : P VNull.
Hypothesis Hbool : forall b, P (VBool b).
Hypothesis Hnum : forall n, P (VNum n).
Hypothesis Hstr : forall s, P (VStr s).
Hypothesis Harr : forall items, Forall P items -> P (VArr items).
Hypothesis Hobj : forall fields, Forall (fun kv => P (snd kv)) fields -> P (VObj fields).
Hypothesis Hfun : forall code captured, Forall P captured -> P (VFun code captured).
Hypothesis Hset : forall i, P (VSetter i).

Fixpoint value_nested_ind (v : value) : P v :=
  match v with
  | VUndefined => Hundef
  | VNull => Hnull
  | VBool b => Hbool b
  | VNum n => Hnum n
  | VStr s => Hstr s
  | VArr items =>
      Harr items
        ((fix go (l : list value) : Forall P l :=
            match l with
            | [] => @List.Forall_nil _ P
            | x :: l' => @List.Forall_cons _ P x l' (value_nested_ind x) (go l')
            end) items)
  | VObj fields =>
      Hobj fields
        ((fix go (l : list (string * value)) : Forall (fun kv => P (snd kv)) l :=
            match l with
            | [] => @List.Forall_nil _ _
            | kv :: l' =>
                @List.Forall_cons _ (fun kv => P (snd kv)) kv l' (value_nested_ind (snd kv)) (go l')
            end) fields)
  | VFun code captured =>
      Hfun code captured
        ((fix go (l : list value) : Forall P l :=
            match l with
            | [] => @List.Forall_nil _ P
            | x :: l' => @List.Forall_cons _ P x l' (value_nested_ind x) (go l')
            end) captured)
  | VSetter i => Hset i
  end.
End value_induction.

(** [typeof v], [Array.isArray(v)] and the strict comparisons the source uses. *)
Definition typeof (v : value) : string :=
  match v with
  | VUndefined => "undefined"
  | VNull => "object"
  | VBool _ => "boolean"
  | VNum _ => "number"
  | VStr _ => "string"
  | VArr _ => "object"
  | VObj _ => "object"
  | VFun _ _ => "function"
  | VSetter _ => "function"
  end.

Definition Array_isArray (v : value) : bool :=
  match v with VArr _ => true | _ => false end.

Definition is_undefined (v : value) : bool :=
  match v with VUndefined => true | _ => false end.

Definition is_null (v : value) : bool :=
  match v with VNull => true | _ => false end.

Definition is_false (v : value) : bool :=
  match v with VBool false => true | _ => false end.

(** ToBoolean, as used by [props || {}]. *)
Definition truthy (v : value) : bool :=
  match v with
  | VUndefined => false
  | VNull => false
  | VBool b => b
  | VNum n => negb (n =? 0)%Z
  | VStr s => negb (String.eqb s "")
  | VArr _ => true
  | VObj _ => true
  | VFun _ _ => true
  | VSetter _ => true
  end.

(** [String(v)] on the two kinds of value the renderer applies it to. *)
Definition js_String (v : value) : string :=
  match v with
  | VStr s => s
  | VNum n => NilZero.string_of_int (Z.to_int n)
  | _ => ""
  end.

(** [l.forEach(f)] where [f] updates a state. *)
Fixpoint forEach {A S : Type} (f : A -> S -> S) (l : list A) (s : S) : S :=
  match l with
  | [] => s
  | x :: l' => forEach f l' (f x s)
  end.

(** ** createElement *)

(** The object literal [{ type, props, children }]. *)
Definition mkNode (type props children : value) : value :=
  VObj [("type", type); ("props", props); ("children", children)].

(** The closure [addChild] of [createElement]; the array [flatChildren] it
    pushes on is passed through. *)
Fixpoint addChild (child : value) (flatChildren : list value) : list value :=
  match child with
  | VArr items => forEach addChild items flatChildren
  | _ =>
      if is_null child || is_false child || is_undefined child
      then flatChildren
      else flatChildren ++ [child]
  end.

Definition createElement (type props : value) (children : list value) : value :=
  let flatChildren := forEach addChild children [] in
  mkNode type (if truthy props then props else VObj []) (VArr flatChildren).

(** The flattening as the specification words it: depth first, in order,
    with every null, false and undefined entry removed. *)
Fixpoint flatten_child (child : value) : list value :=
  match child with
  | VArr items => List.flat_map flatten_child items
  | VNull => []
  | VUndefined => []
  | VBool false => []
  | _ => [child]
  end.

Definition flatten_children (children : list value) : list value :=
  List.flat_map flatten_child children.

(** ** Objects *)

(** [o[k] = v] on the property list of a plain object: an existing property
    keeps its place, a new one goes last. *)
Fixpoint set_field (k : string) (v : value) (fields : list (string * value))
  : list (string * value) :=
  match fields with
  | [] => [(k, v)]
  | (k', v') :: rest =>
      if String.eqb k' k then (k', v) :: rest else (k', v') :: set_field k v rest
  end.

Fixpoint get_field (k : string) (fields : list (string * value)) : value :=
  match fields with
  | [] => VUndefined
  | (k', v') :: rest => if String.eqb k' k then v' else get_field k rest
  end.

(** How a call of the runtime ends: it returns, an exception propagates to
    the caller (the partly updated state is then not tracked), or the model
    ran out of fuel. *)
Inductive outcome (A : Type) : Type :=
| Ok (a : A)
| Fault
| OutOfFuel.
Arguments Ok {A} a.
Arguments Fault {A}.
Arguments OutOfFuel {A}.

Definition bind {A B : Type} (c : outcome A) (k : A -> outcome B) : outcome B :=
  match c with
  | Ok a => k a
  | Fault => Fault
  | OutOfFuel => OutOfFuel
  end.

Notation "'let*' x ':=' c 'in' k" := (bind c (fun x => k))
  (at level 10, x pattern, c at level 100, k at level 200).

(** [l.forEach(f)] where [f] may throw. *)
Fixpoint forEachM {A S : Type} (f : A -> S -> outcome S) (l : list A) (s : S) : outcome S :=
  match l with
  | [] => Ok s
  | x :: l' => let* s' := f x s in forEachM f l' s'
  end.

(** [o.k] for the names the renderer reads ([type], [props], [children]):
    a TypeError on null and undefined, undefined on a value that is not a
    plain object. *)
Definition get_prop (o : value) (k : string) : outcome value :=
  match o with
  | VUndefined => Fault
  | VNull => Fault
  | VObj fields => Ok (get_field k fields)
  | _ => Ok VUndefined
  end.

Definition string_of_nat (n : nat) : string := NilZero.string_of_uint (Nat.to_uint n).

Fixpoint chars_from (i : nat) (s : string) : list (string * value) :=
  match s with
  | EmptyString => []
  | String c s' => (string_of_nat i, VStr (String c EmptyString)) :: chars_from (S i) s'
  end.

Fixpoint items_from (i : nat) (l : list value) : list (string * value) :=
  match l with
  | [] => []
  | x :: l' => (string_of_nat i, x) :: items_from (S i) l'
  end.

(** The own enumerable properties of a value taken as an object. *)
Definition own_entries (v : value) : list (string * value) :=
  match v with
  | VObj fields => fields
  | VStr s => chars_from 0 s
  | VArr items => items_from 0 items
  | _ => []
  end.

(** [Object.entries(v)]: a TypeError on null and undefined. *)
Definition Object_entries (v : value) : outcome (list (string * value)) :=
  match v with
  | VUndefined => Fault
  | VNull => Fault
  | _ => Ok (own_entries v)
  end.

(** [Object.assign(target, ...sources)] on a fresh target: null and
    undefined sources are skipped. *)
Definition Object_assign (target : list (string * value)) (sources : list value) : value :=
  VObj (forEach
          (fun source t => forEach (fun kv t' => set_field (fst kv) (snd kv) t') (own_entries source) t)
          sources target).

(** ** The host display tree

    The display engine is outside the repository. A host element is the
    record of what the renderer did to it: the tag it was created with, the
    listeners added (in the order of the calls), the attributes, style
    properties and fields written (the last write to a name wins), and the
    children appended. Every call on the engine returns normally. *)

Record element_of (N : Type) : Type := mkElement {
  tagName : value;
  listeners : list (string * value);
  attributes : list (string * value);
  style : list (string * value);
  properties : list (string * value);
  childNodes : list N
}.
Arguments mkElement {N}.
Arguments tagName {N}.
Arguments listeners {N}.
Arguments attributes {N}.
Arguments style {N}.
Arguments properties {N}.
Arguments childNodes {N}.

Inductive dom_node : Type :=
| TextNode (data : string)
| ElementNode (e : element_of dom_node).

Definition element := element_of dom_node.

Definition document_createElement (tag : value) : element :=
  mkElement tag [] [] [] [] [].

Definition document_createTextNode (data : string) : dom_node := TextNode data.

Definition appendChild (container : element) (child : dom_node) : element :=
  mkElement (tagName container) (listeners container) (attributes container)
    (style container) (properties container) (childNodes container ++ [child]).

Definition set_childNodes (children : list dom_node) (container : element) : element :=
  mkElement (tagName container) (listeners container) (attributes container)
    (style container) (properties container) children.

Definition addEventListener (type : string) (listener : value) (dom : element) : element :=
  mkElement (tagName dom) (listeners dom ++ [(type, listener)]) (attributes dom)
    (style dom) (properties dom) (childNodes dom).

Definition setAttribute (name : string) (v : value) (dom : element) : element :=
  mkElement (tagName dom) (listeners dom) (set_field name v (attributes dom))
    (style dom) (properties dom) (childNodes dom).

Definition set_style (propName : string) (propValue : value) (dom : element) : element :=
  mkElement (tagName dom) (listeners dom) (attributes dom)
    (set_field propName propValue (style dom)) (properties dom) (childNodes dom).

Definition set_property (name : string) (v : value) (dom : element) : element :=
  mkElement (tagName dom) (listeners dom) (attributes dom)
    (style dom) (set_field name v (properties dom)) (childNodes dom).

(** [while (container.firstChild) container.removeChild(container.firstChild)] *)
Fixpoint removeChildren (children : list dom_node) : list dom_node :=
  match children with
  | [] => []
  | firstChild :: rest => removeChildren rest
  end.

(** ** Strings *)

(** [s.toLowerCase()], on the letters A to Z. *)
Definition lower_ascii (c : ascii) : ascii :=
  let n := nat_of_ascii c in
  if (65 <=? n)%nat && (n <=? 90)%nat then ascii_of_nat (n + 32) else c.

Fixpoint toLowerCase (s : string) : string :=
  match s with
  | EmptyString => EmptyString
  | String c s' => String (lower_ascii c) (toLowerCase s')
  end.

(** [s.startsWith(pre)] *)
Fixpoint startsWith (pre s : string) : bool :=
  match pre, s with
  | EmptyString, _ => true
  | String a pre', String b s' => Ascii.eqb a b && startsWith pre' s'
  | String _ _, EmptyString => false
  end.

(** [s.slice(n)] *)
Fixpoint slice (n : nat) (s : string) : string :=
  match n, s with
  | O, _ => s
  | S n', EmptyString => EmptyString
  | S n', String _ s' => slice n' s'
  end.

(** ** The runtime state

    The four variables of the module, and the containers of the host
    display tree that [render] is given, by handle. *)

Definition handle := nat.

Record runtime : Type := mkRuntime {
  hookStates : list value;
  hookIndex : nat;
  currentRootElement : value;
  currentContainer : option handle;
  containers : gmap handle element
}.

Definition set_hookStates (hs : list value) (rt : runtime) : runtime :=
  mkRuntime hs (hookIndex rt) (currentRootElement rt) (currentContainer rt) (containers rt).

Definition set_hookIndex (i : nat) (rt : runtime) : runtime :=
  mkRuntime (hookStates rt) i (currentRootElement rt) (currentContainer rt) (containers rt).

Definition set_currentRootElement (e : value) (rt : runtime) : runtime :=
  mkRuntime (hookStates rt) (hookIndex rt) e (currentContainer rt) (containers rt).

Definition set_currentContainer (c : option handle) (rt : runtime) : runtime :=
  mkRuntime (hookStates rt) (hookIndex rt) (currentRootElement rt) c (containers rt).

Definition set_containers (d : gmap handle element) (rt : runtime) : runtime :=
  mkRuntime (hookStates rt) (hookIndex rt) (currentRootElement rt) (currentContainer rt) d.

(** The state of the module when it is loaded. *)
Definition initial_runtime (d : gmap handle element) : runtime :=
  mkRuntime [] 0 VNull None d.

(** [a[i]] and [a[i] = v] on a JavaScript array: reading past the end gives
    undefined, writing past the end extends the array. *)
Definition array_get (a : list value) (i : nat) : value :=
  default VUndefined (a !! i).

Definition array_set (i : nat) (v : value) (a : list value) : list value :=
  if (i <? length a)%nat then <[i:=v]> a
  else a ++ replicate (i - length a) VUndefined ++ [v].

(** ** useState *)

Definition useState (initialValue : value) (rt : runtime) : (value * value) * runtime :=
  let stateIndex := hookIndex rt in
  let rt :=
    if is_undefined (array_get (hookStates rt) stateIndex)
    then set_hookStates (array_set stateIndex initialValue (hookStates rt)) rt
    else rt in
  let setState := VSetter stateIndex in
  let value := array_get (hookStates rt) stateIndex in
  let rt := set_hookIndex (S (hookIndex rt)) rt in
  ((value, setState), rt).

(** The body of a function of the application, called with one argument: it
    computes, calls [useState] any number of times, and returns a value or
    throws. *)
Inductive prog : Type :=
| Return (v : value)
| UseState (initialValue : value) (k : value -> value -> prog)
| Raise.

Fixpoint run (p : prog) (rt : runtime) : outcome (value * runtime) :=
  match p with
  | Return v => Ok (v, rt)
  | UseState initialValue k =>
      let '((v, setState), rt') := useState initialValue rt in
      run (k v setState) rt'
  | Raise => Fault
  end.

(** ** appendElement, render and the setter closures *)

Section Renderer.

(** The code of the application's functions, by name: the body of the
    function, given the values it captured and its argument. *)
Variable fn : fname -> list value -> value -> prog.

(** [name in dom]: whether the host element exposes a field of that name. *)
Variable name_in : string -> element -> bool.

(** The callback applied to each entry of [node.props]. *)
Definition apply_prop (name : string) (v : value) (dom : element) : outcome element :=
  if startsWith "on" name && String.eqb (typeof v) "function" then
    let eventType := toLowerCase (slice 2 name) in
    Ok (addEventListener eventType v dom)
  else if String.eqb name "className" then
    Ok (setAttribute "class" v dom)
  else if String.eqb name "style" && String.eqb (typeof v) "object" then
    let* entries := Object_entries v in
    Ok (forEach (fun kv d => set_style (fst kv) (snd kv) d) entries dom)
  else if negb (String.eqb name "children") then
    if negb (is_null v) && negb (is_undefined v) then
      if name_in name dom then Ok (set_property name v dom)
      else Ok (setAttribute name v dom)
    else Ok dom
  else Ok dom.

Definition apply_props (entries : list (string * value)) (dom : element) : outcome element :=
  forEachM (fun kv d => apply_prop (fst kv) (snd kv) d) entries dom.

(** [component(arg)] during a pass. A setter closure called as a component
    re-enters [render] and returns undefined, which the recursive
    [appendElement] then rejects: the call never returns normally. *)
Definition call_component (component arg : value) (rt : runtime) : outcome (value * runtime) :=
  match component with
  | VFun code captured => run (fn code captured arg) rt
  | _ => Fault
  end.

(** [children.forEach(f)]: a TypeError when [children] is not an array. *)
Definition Array_forEach {S : Type} (a : value) (f : value -> S -> outcome S) (s : S)
  : outcome S :=
  match a with
  | VArr items => forEachM f items s
  | _ => Fault
  end.

Fixpoint appendElement (fuel : nat) (node : value) (container : element) (rt : runtime)
  : outcome (element * runtime) :=
  match fuel with
  | O => OutOfFuel
  | S fuel' =>
      let append_into child (s : element * runtime) :=
        appendElement fuel' child (fst s) (snd s) in
      if String.eqb (typeof node) "string" || String.eqb (typeof node) "number" then
        let textNode := document_createTextNode (js_String node) in
        Ok (appendChild container textNode, rt)
      else if Array_isArray node then
        Array_forEach node append_into (container, rt)
      else
        let* type := get_prop node "type" in
        if String.eqb (typeof type) "function" then
          let* props := get_prop node "props" in
          let* children := get_prop node "children" in
          let* r := call_component type
                      (Object_assign [] [props; VObj [("children", children)]]) rt in
          appendElement fuel' (fst r) container (snd r)
        else
          let dom := document_createElement type in
          let* props := get_prop node "props" in
          let* entries := Object_entries props in
          let* dom := apply_props entries dom in
          let* children := get_prop node "children" in
          let* s := Array_forEach children append_into (dom, rt) in
          Ok (appendChild container (ElementNode (fst s)), snd s)
  end.

(** A handle that names no container stands for null: reading its
    [firstChild] is a TypeError. *)
Definition render (fuel : nat) (element : value) (container : handle) (rt : runtime)
  : outcome runtime :=
  let rt := set_hookIndex 0 rt in
  let rt := set_currentRootElement element rt in
  let rt := set_currentContainer (Some container) rt in
  match containers rt !! container with
  | None => Fault
  | Some c =>
      let c := set_childNodes (removeChildren (childNodes c)) c in
      let* s := appendElement fuel element c rt in
      Ok (set_containers (<[container := fst s]> (containers (snd s))) (snd s))
  end.

(** [render(currentRootElement, currentContainer)]: a TypeError when no
    container was retained yet. *)
Definition rerender (fuel : nat) (rt : runtime) : outcome runtime :=
  match currentContainer rt with
  | None => Fault
  | Some container => render fuel (currentRootElement rt) container rt
  end.

(** The closure [setState] created by the [useState] call that ran at
    index [stateIndex]. A callable [newValue] is a function of the
    application or another setter closure, which returns undefined. *)
Fixpoint setState (fuel : nat) (stateIndex : nat) (newValue : value) (rt : runtime)
  : outcome runtime :=
  match fuel with
  | O => OutOfFuel
  | S fuel' =>
      let* rt :=
        if String.eqb (typeof newValue) "function" then
          let prev := array_get (hookStates rt) stateIndex in
          let* r :=
            match newValue with
            | VFun code captured => run (fn code captured prev) rt
            | VSetter j => let* rt' := setState fuel' j prev rt in Ok (VUndefined, rt')
            | _ => Fault
            end in
          Ok (set_hookStates (array_set stateIndex (fst r) (hookStates (snd r))) (snd r))
        else
          Ok (set_hookStates (array_set stateIndex newValue (hookStates rt)) rt) in
      let rt := set_hookIndex 0 rt in
      rerender fuel' rt
  end.

End Renderer.

(** ** The loaders of the application (app.js) *)

(** How a statement of the application completes: normally, or by throwing. *)
Inductive completion (A : Type) : Type :=
| Normal (a : A)
| Throw (err : value).
Arguments Normal {A} a.
Arguments Throw {A} err.

Definition and_then {A B : Type} (c : completion A) (k : A -> completion B) : completion B :=
  match c with
  | Normal a => k a
  | Throw err => Throw err
  end.

(** [try { body } catch (err) { handler }]: [body] yields [Some v] when it
    ran [return v] and [None] when it ran to its end. *)
Definition try_catch {A S : Type} (body : completion (option A * S))
  (handler : value -> completion (option A * S)) : completion (option A * S) :=
  match body with
  | Normal r => Normal r
  | Throw err => handler err
  end.

Definition TypeError : value := VStr "TypeError".

(** [o.k] in application code. *)
Definition member (o : value) (k : string) : completion value :=
  match o with
  | VUndefined => Throw TypeError
  | VNull => Throw TypeError
  | VObj fields => Normal (get_field k fields)
  | _ => Normal VUndefined
  end.

(** A line written by [console.error(message, err)]. *)
Definition console := list (string * value).

Section Loaders.

(** [JSON.parse]: throws on a payload that is not JSON. *)
Variable JSON_parse : string -> completion value.

(** [new Date(x) - new Date(y)]; [None] is NaN. *)
Variable date_diff : value -> value -> option Z.

(** [s.localeCompare(x)] on a string [s]. *)
Variable localeCompare : string -> value -> Z.

(** [Array.prototype.sort] with a comparator that may throw; which pairs
    it compares is the engine's business. *)
Variable Array_sort :
  (value -> value -> completion (option Z)) -> list value -> completion (list value).

(** The comparator of [loadEntries]. *)
Definition compare_entries (a b : value) : completion (option Z) :=
  and_then (member a "date") (fun a_date =>
  and_then (member b "date") (fun b_date =>
  let dateDiff := date_diff a_date b_date in
  if negb (match dateDiff with Some 0%Z => true | _ => false end) then Normal dateDiff
  else
    and_then (member a "exercise") (fun a_exercise =>
    match a_exercise with
    | VStr s =>
        and_then (member b "exercise") (fun b_exercise =>
        Normal (Some (localeCompare s b_exercise)))
    | _ => Throw TypeError
    end))).

(** [entries.sort(compare_entries)]: a TypeError when [entries] has no
    [sort] method. *)
Definition sort_entries (entries : value) : completion value :=
  match entries with
  | VArr items => and_then (Array_sort compare_entries items) (fun sorted => Normal (VArr sorted))
  | _ => Throw TypeError
  end.

(** [if (data)] on the result of [localStorage.getItem]: null and the
    empty string are falsy. *)
Definition present (data : option string) : option string :=
  match data with
  | Some d => if String.eqb d "" then None else Some d
  | None => None
  end.

Definition loadEntries (localStorage : gmap string string) (log : console)
  : completion (value * console) :=
  and_then
    (try_catch
       (let data := localStorage !! "workoutEntries" in
        match present data with
        | Some d =>
            and_then (JSON_parse d) (fun entries =>
            and_then (sort_entries entries) (fun entries =>
            Normal (Some entries, log)))
        | None => Normal (None, log)
        end)
       (fun err => Normal (None, log ++ [("Failed to load entries:", err)])))
    (fun r =>
       match fst r with
       | Some entries => Normal (entries, snd r)
       | None => Normal (VArr [], snd r)
       end).

Definition loadPlan (localStorage : gmap string string) (log : console)
  : completion (value * console) :=
  and_then
    (try_catch
       (let data := localStorage !! "workoutPlan" in
        match present data with
        | Some d => and_then (JSON_parse d) (fun plan => Normal (Some plan, log))
        | None => Normal (None, log)
        end)
       (fun err => Normal (None, log ++ [("Failed to load plan:", err)])))
    (fun r =>
       match fst r with
       | Some plan => Normal (plan, snd r)
       | None => Normal (VNull, snd r)
       end).

End Loaders.

(** ** Notions used by the statements *)

(** A value that [addChild] pushes as it is. *)
Definition kept (child : value) : Prop := flatten_child child = [child].

(** [ns] appended, in order, to the children of [container]. *)
Definition append_nodes (container : element) (ns : list dom_node) : element :=
  set_childNodes (childNodes container ++ ns) container.

(** Two runs of the same mounting into two containers. *)
Definition same_appended (c1 c2 : element)
    (o1 o2 : outcome (element * runtime)) : Prop :=
  match o1, o2 with
  | Ok s1, Ok s2 =>
      snd s1 = snd s2
      /\ exists ns, fst s1 = append_nodes c1 ns /\ fst s2 = append_nodes c2 ns
  | Fault, Fault => True
  | OutOfFuel, OutOfFuel => True
  | _, _ => False
  end.

(** The runtime state with the retained session and the containers replaced:
    what a materialization pass neither reads nor writes. *)
Definition reframe (root : value) (container : option handle) (d : gmap handle element)
    (rt : runtime) : runtime :=
  mkRuntime (hookStates rt) (hookIndex rt) root container d.

Definition map_state {A : Type} (g : runtime -> runtime) (o : outcome (A * runtime))
  : outcome (A * runtime) :=
  match o with
  | Ok s => Ok (fst s, g (snd s))
  | Fault => Fault
  | OutOfFuel => OutOfFuel
  end.

(** The props of the host node of the prop-application example. *)
Definition example_props (f : value) : value :=
  VObj [("className", VStr "x"); ("style", VObj [("color", VStr "red")]);
        ("onClick", f); ("disabled", VUndefined)].

(** An element attached nowhere, to mount into. *)
Definition detached : element := document_createElement VUndefined.

Section Materialization.

Variable fn : fname -> list value -> value -> prog.
Variable name_in : string -> element -> bool.

(** The host nodes that mounting [node] produces, in order. *)
Definition mounted (fuel : nat) (node : value) (rt : runtime)
  : outcome (list dom_node * runtime) :=
  let* s := appendElement fn name_in fuel node detached rt in
  Ok (childNodes (fst s), snd s).

(** The host nodes that mounting the members of [children] one after the
    other produces. *)
Definition mounted_all (fuel : nat) (children : list value) (rt : runtime)
  : outcome (list dom_node * runtime) :=
  let* s := forEachM (fun child s => appendElement fn name_in fuel child (fst s) (snd s))
              children (detached, rt) in
  Ok (childNodes (fst s), snd s).

(** A callable handed to a setter: a function of the application, or
    another setter closure, which returns undefined. *)
Definition call_updater (fuel : nat) (newValue prev : value) (rt : runtime)
  : outcome (value * runtime) :=
  match newValue with
  | VFun code captured => run (fn code captured prev) rt
  | VSetter j => let* rt' := setState fn name_in fuel j prev rt in Ok (VUndefined, rt')
  | _ => Fault
  end.

(** [k] calls of the setter of slot [stateIndex] with [newValue], each
    made after the previous one returned. *)
Fixpoint invoke (fuel k : nat) (stateIndex : nat) (newValue : value) (rt : runtime)
  : outcome runtime :=
  match k with
  | O => Ok rt
  | S k' =>
      let* rt' := invoke fuel k' stateIndex newValue rt in
      setState fn name_in fuel stateIndex newValue rt'
  end.

End Materialization.

(** The value in slot [j] of the hook slot store. *)
Definition slot (rt : runtime) (j : nat) : value := array_get (hookStates rt) j.

(** What a stretch of a pass may do to the hook slot store: the index only
    grows, the slots below the index it started at keep their value, and so
    does every slot that held a value other than undefined. *)
Definition pass_rel (rt rt' : runtime) : Prop :=
  (hookIndex rt <= hookIndex rt')%nat
  /\ (forall j, (j < hookIndex rt)%nat -> slot rt' j = slot rt j)
  /\ (forall j, slot rt j <> VUndefined -> slot rt' j = slot rt j).

Definition framed {A : Type} (m : runtime -> outcome (A * runtime)) : Prop :=
  forall rt a rt', m rt = Ok (a, rt') -> pass_rel rt rt'.

(** [m] runs again the same way from any state that starts at the same
    index and holds, in the slots [m] went through, the values [m] left
    there; the second run leaves every slot as it found it. *)
Definition replays {A : Type} (m : runtime -> outcome (A * runtime)) : Prop :=
  forall rt a rt', m rt = Ok (a, rt') ->
  forall rt2,
    hookIndex rt2 = hookIndex rt ->
    (forall j, (hookIndex rt <= j < hookIndex rt')%nat -> slot rt2 j = slot rt' j) ->
    exists rt2',
      m rt2 = Ok (a, rt2')
      /\ hookIndex rt2' = hookIndex rt'
      /\ (forall j, slot rt2' j = slot rt2 j).


(** ** A small application, used to run the model

    [Counter] is the component
    [function Counter() { const [count, setCount] = useState(0);
       return createElement('button', {onClick: () => setCount(c => c + 1)}, count); }],
    and [inc] is the updater [prev => prev + 1] on numbers. The click
    handler captures the setter; the display engine runs it, the renderer
    never does. *)

Definition demo_view (arg count setCount : value) : value :=
  createElement (VStr "button") (VObj [("onClick", VFun "onClick" [setCount])]) [count].

Definition demo_fn (code : fname) (captured : list value) (arg : value) : prog :=
  if String.eqb code "Counter" then
    UseState (VNum 0) (fun count setCount => Return (demo_view arg count setCount))
  else if String.eqb code "inc" then
    match arg with
    | VNum n => Return (VNum (n + 1))
    | _ => Raise
    end
  else Raise.

Definition demo_name_in (name : string) (dom : element) : bool :=
  String.eqb name "value" || String.eqb name "checked" || String.eqb name "disabled".

Definition demo_shown (arg : value) (n : Z) : list dom_node :=
  [ElementNode
     (mkElement (VStr "button") [("click", VFun "onClick" [VSetter 0])] [] [] []
        [TextNode (js_String (VNum n))])].

Definition demo_root : value := createElement (VFun "Counter" []) VNull [].

Definition demo_container : element := document_createElement (VStr "main").

Definition demo_rt0 : runtime := initial_runtime {[ 0%nat := demo_container ]}.

(** The state after the first render of [demo_root] into container 0. *)
Definition demo_rt1 : runtime :=
  mkRuntime [VNum 0] 1 demo_root (Some 0%nat)
    {[ 0%nat := set_childNodes (demo_shown VNull 0) demo_container ]}.

(** A [JSON.parse] that knows three payloads, and an insertion sort for
    [Array.prototype.sort]. *)
Definition demo_JSON_parse (s : string) : completion value :=
  if String.eqb s "[]" then Normal (VArr [])
  else if String.eqb s "[null,null]" then Normal (VArr [VNull; VNull])
  else if String.eqb s "null" then Normal VNull
  else Throw (VStr "SyntaxError").

Fixpoint demo_insert (cmp : value -> value -> completion (option Z)) (x : value)
    (l : list value) : completion (list value) :=
  match l with
  | [] => Normal [x]
  | y :: l' =>
      and_then (cmp x y) (fun r =>
      match r with
      | Some z =>
          if (z <=? 0)%Z then Normal (x :: y :: l')
          else and_then (demo_insert cmp x l') (fun l'' => Normal (y :: l''))
      | None => Normal (x :: y :: l')
      end)
  end.

Fixpoint demo_sort (cmp : value -> value -> completion (option Z)) (l : list value)
  : completion (list value) :=
  match l with
  | [] => Normal []
  | x :: l' => and_then (demo_sort cmp l') (demo_insert cmp x)
  end.

Definition demo_date_diff (a b : value) : option Z :=
  match a, b with
  | VNum x, VNum y => Some (x - y)%Z
  | _, _ => None
  end.

Definition demo_localeCompare (s : string) (x : value) : Z := 0%Z.

(** ** Saving, and the exercise bank (app.js) *)

Definition QuotaExceededError : value := VStr "QuotaExceededError".

(** [a === b] for the members of a [Set] (SameValueZero). Arrays and objects
    are compared by identity: those of a parsed payload are all distinct. *)
Definition same_value_zero (a b : value) : bool :=
  match a, b with
  | VUndefined, VUndefined => true
  | VNull, VNull => true
  | VBool x, VBool y => Bool.eqb x y
  | VNum x, VNum y => (x =? y)%Z
  | VStr x, VStr y => String.eqb x y
  | _, _ => false
  end.

(** [set.has(x)] on the members of a Set, oldest first. *)
Fixpoint set_has (x : value) (members : list value) : bool :=
  match members with
  | [] => false
  | y :: rest => same_value_zero y x || set_has x rest
  end.

(** [set.add(x)] *)
Definition set_add (x : value) (members : list value) : list value :=
  if set_has x members then members else members ++ [x].



Section Storage.

(** [JSON.parse] and [JSON.stringify]; the latter returns undefined ([None])
    for a value that has no JSON text, and may throw. *)
Variable JSON_parse : string -> completion value.
Variable JSON_stringify : value -> completion (option string).

(** Whether the store accepts [key] with [data]; it throws otherwise. *)
Variable fits : string -> string -> gmap string string -> bool.

Variable localeCompare : string -> value -> Z.
Variable Array_sort :
  (value -> value -> completion (option Z)) -> list value -> completion (list value).

(** [localStorage.setItem(key, data)]: undefined is stored as its name. *)
Definition setItem (key : string) (data : option string) (localStorage : gmap string string)
  : completion (gmap string string) :=
  let text := default "undefined" data in
  if fits key text localStorage then Normal (<[key := text]> localStorage)
  else Throw QuotaExceededError.

Definition removeItem (key : string) (localStorage : gmap string string)
  : gmap string string :=
  delete key localStorage.

Definition saveEntries (entries : value) (localStorage : gmap string string) (log : console)
  : completion (gmap string string * console) :=
  and_then
    (try_catch
       (and_then (JSON_stringify entries) (fun text =>
        and_then (setItem "workoutEntries" text localStorage) (fun stored =>
        Normal (@None value, (stored, log)))))
       (fun err => Normal (None, (localStorage, log ++ [("Failed to save entries:", err)]))))
    (fun r => Normal (snd r)).

Definition savePlan (plan : value) (localStorage : gmap string string) (log : console)
  : completion (gmap string string * console) :=
  and_then
    (try_catch
       (if truthy plan then
          and_then (JSON_stringify plan) (fun text =>
          and_then (setItem "workoutPlan" text localStorage) (fun stored =>
          Normal (@None value, (stored, log))))
        else Normal (None, (removeItem "workoutPlan" localStorage, log)))
       (fun err => Normal (None, (localStorage, log ++ [("Failed to save plan:", err)]))))
    (fun r => Normal (snd r)).

Definition saveExerciseBank (bank : value) (localStorage : gmap string string) (log : console)
  : completion (gmap string string * console) :=
  and_then
    (try_catch
       (and_then (JSON_stringify bank) (fun text =>
        and_then (setItem "exerciseBank" text localStorage) (fun stored =>
        Normal (@None value, (stored, log)))))
       (fun err => Normal (None, (localStorage, log ++ [("Failed to save exercise bank:", err)]))))
    (fun r => Normal (snd r)).

(** What one guarded write leaves: the record written and the log as it
    was, or the store as it was and one more line in the log. *)
Definition written_or_logged (key message : string) (v : value)
    (localStorage : gmap string string) (log : console)
    (result : completion (gmap string string * console)) : Prop :=
  (exists text,
      JSON_stringify v = Normal text
      /\ fits key (default "undefined" text) localStorage = true
      /\ result = Normal (<[key := default "undefined" text]> localStorage, log))
  \/ (exists err, result = Normal (localStorage, log ++ [(message, err)])).

(** [Array.prototype.sort] without a comparator. *)
Variable Array_sort_default : list value -> completion (list value).

(** [entries.forEach((e) => set.add(e.exercise))] *)
Fixpoint add_exercises (entries : list value) (members : list value)
  : completion (list value) :=
  match entries with
  | [] => Normal members
  | e :: rest =>
      and_then (member e "exercise") (fun exercise =>
      add_exercises rest (set_add exercise members))
  end.

Definition getUniqueExercises (entries : value) : completion value :=
  match entries with
  | VArr items =>
      and_then (add_exercises items []) (fun members =>
      and_then (Array_sort_default members) (fun sorted =>
      Normal (VArr sorted)))
  | _ => Throw TypeError
  end.




End Storage.

(** A [JSON.stringify] for values whose strings need no escaping: undefined
    and functions have no text, and stand as null inside an array. *)
Definition double_quote : string := String (ascii_of_nat 34) EmptyString.

Fixpoint demo_json (v : value) : option string :=
  match v with
  | VUndefined => None
  | VNull => Some "null"
  | VBool true => Some "true"
  | VBool false => Some "false"
  | VNum n => Some (js_String (VNum n))
  | VStr s => Some (double_quote +:+ s +:+ double_quote)
  | VArr items =>
      Some ("[" +:+ String.concat "," (map (fun x => default "null" (demo_json x)) items)
                +:+ "]")
  | VObj fields =>
      Some ("{" +:+ String.concat ","
                     (flat_map (fun kv =>
                                  match demo_json (snd kv) with
                                  | Some text => [double_quote +:+ fst kv +:+ double_quote
                                                    +:+ ":" +:+ text]
                                  | None => []
                                  end) fields)
                +:+ "}")
  | VFun _ _ => None
  | VSetter _ => None
  end.

Definition demo_JSON_stringify (v : value) : completion (option string) :=
  Normal (demo_json v).

(** A component that renders nothing: [() => null]. *)
Definition empty_fn (code : fname) (captured : list value) (arg : value) : prog :=
  Return VNull.

(** [s.localeCompare(x)] as the order of the character codes. *)
Definition demo_compare_strings (s : string) (x : value) : Z :=
  match x with
  | VStr t =>
      match String.compare s t with
      | Lt => (-1)%Z
      | Eq => 0%Z
      | Gt => 1%Z
      end
  | _ => 0%Z
  end.

Definition demo_sort_default (l : list value) : completion (list value) :=
  demo_sort (fun a b =>
               match a with
               | VStr s => Normal (Some (demo_compare_strings s b))
               | _ => Normal (Some 0%Z)
               end) l.

(** A store that holds at most two records. *)
Definition demo_fits (key text : string) (localStorage : gmap string string) : bool :=
  (size (<[key := text]> localStorage) <=? 2)%nat.

(** How many members of [l] are the value [x], as a Set tells values apart. *)
Definition occurrences (x : value) (l : list value) : nat :=
  length (filter (fun y => same_value_zero y x = true) l).

(** * Properties *)

(** ** createElement *)

Lemma forEach_addChild_spec (items : list value) :
  Forall (fun c => forall acc, addChild c acc = acc ++ flatten_child c) items ->
  forall acc, forEach addChild items acc = acc ++ List.flat_map flatten_child items.
Proof.
  induction 1 as [|c items Hc _ IH]; intros acc; simpl.
  - now rewrite app_nil_r.
  - rewrite Hc, IH. now rewrite <- app_assoc.
Qed.

Lemma addChild_spec (child : value) (acc : list value) :
  addChild child acc = acc ++ flatten_child child.
Proof.
  revert acc. induction child using value_nested_ind; intros acc;
    try (simpl; now rewrite ?app_nil_r).
  - destruct b; simpl; now rewrite ?app_nil_r.
  - simpl. now apply forEach_addChild_spec.
Qed.

Lemma flatChildren_spec (children : list value) :
  forEach addChild children [] = flatten_children children.
Proof.
  unfold flatten_children.
  rewrite forEach_addChild_spec; [reflexivity|].
  apply Forall_forall. intros c _ acc. apply addChild_spec.
Qed.

Lemma flatten_child_kept (child : value) : Forall kept (flatten_child child).
Proof.
  induction child using value_nested_ind; simpl;
    try (constructor; [reflexivity | constructor]); try constructor.
  - destruct b; repeat constructor.
  - induction H as [|c items Hc _ IH]; simpl; [constructor|].
    apply Forall_app. split; assumption.
Qed.

Lemma flat_map_kept (l : list value) :
  Forall kept l -> List.flat_map flatten_child l = l.
Proof.
  induction 1 as [|c l Hc _ IH]; simpl; [reflexivity|].
  rewrite Hc, IH. reflexivity.
Qed.

Lemma flatten_children_idempotent (children : list value) :
  flatten_children (flatten_children children) = flatten_children children.
Proof.
  apply flat_map_kept. unfold flatten_children.
  induction children as [|c l IH]; simpl; [constructor|].
  apply Forall_app. split; [apply flatten_child_kept | exact IH].
Qed.

Lemma createElement_eq (type props : value) (children : list value) :
  createElement type props children
  = mkNode type (if truthy props then props else VObj []) (VArr (flatten_children children)).
Proof. unfold createElement. now rewrite flatChildren_spec. Qed.

Example createElement_mixed_children :
  createElement (VStr "ul") VNull
    [VArr [VNull; VStr "a"; VArr [VBool false; VNum 3; VArr []]]; VUndefined; VStr "b"]
  = mkNode (VStr "ul") (VObj []) (VArr [VStr "a"; VNum 3; VStr "b"]).
Proof. reflexivity. Qed.

Section RendererFacts.

Variable fn : fname -> list value -> value -> prog.
Variable name_in : string -> element -> bool.

Lemma appendElement_unfold (fuel : nat) (node : value) (container : element) (rt : runtime) :
  appendElement fn name_in (S fuel) node container rt =
    let append_into child (s : element * runtime) :=
      appendElement fn name_in fuel child (fst s) (snd s) in
    if String.eqb (typeof node) "string" || String.eqb (typeof node) "number" then
      Ok (appendChild container (document_createTextNode (js_String node)), rt)
    else if Array_isArray node then
      Array_forEach node append_into (container, rt)
    else
      let* type := get_prop node "type" in
      if String.eqb (typeof type) "function" then
        let* props := get_prop node "props" in
        let* children := get_prop node "children" in
        let* r := call_component fn type
                    (Object_assign [] [props; VObj [("children", children)]]) rt in
        appendElement fn name_in fuel (fst r) container (snd r)
      else
        let dom := document_createElement type in
        let* props := get_prop node "props" in
        let* entries := Object_entries props in
        let* dom := apply_props name_in entries dom in
        let* children := get_prop node "children" in
        let* s := Array_forEach children append_into (dom, rt) in
        Ok (appendChild container (ElementNode (fst s)), snd s).
Proof. reflexivity. Qed.

(** Mounting a node built by [mkNode] whose type is not a function. *)
Lemma appendElement_host (fuel : nat) (type props : value) (children : list value)
    (container : element) (rt : runtime) :
  String.eqb (typeof type) "function" = false ->
  appendElement fn name_in (S fuel) (mkNode type props (VArr children)) container rt =
    let* entries := Object_entries props in
    let* dom := apply_props name_in entries (document_createElement type) in
    let* s := forEachM (fun child s => appendElement fn name_in fuel child (fst s) (snd s))
                children (dom, rt) in
    Ok (appendChild container (ElementNode (fst s)), snd s).
Proof.
  intros Htype. rewrite appendElement_unfold. cbn. rewrite Htype. reflexivity.
Qed.

(** C9: when the props argument of createElement is falsy (null in
    particular), the props of the node returned is the empty mapping,
    whatever the tag and the children; the props of a constructed node is
    never null or undefined; mounting the node as a host node creates the
    element and applies no prop to it, and mounting it as a component
    passes only the children. *)
Theorem createElement_falsy_props (type props : value) (children : list value) :
  truthy props = false ->
  createElement type props children
    = mkNode type (VObj []) (VArr (flatten_children children))
  /\ (forall anyProps, exists p,
        get_prop (createElement type anyProps children) "props" = Ok p
        /\ is_null p = false /\ is_undefined p = false)
  /\ (String.eqb (typeof type) "function" = false ->
      forall fuel container rt,
        appendElement fn name_in (S fuel) (createElement type props children) container rt
        = let* s := forEachM
                      (fun child s => appendElement fn name_in fuel child (fst s) (snd s))
                      (flatten_children children) (document_createElement type, rt) in
          Ok (appendChild container (ElementNode (fst s)), snd s))
  /\ (String.eqb (typeof type) "function" = true ->
      forall fuel container rt,
        appendElement fn name_in (S fuel) (createElement type props children) container rt
        = let* r := call_component fn type
                      (VObj [("children", VArr (flatten_children children))]) rt in
          appendElement fn name_in fuel (fst r) container (snd r)).
Proof.
  intros Hfalsy.
  assert (Heq : createElement type props children
                = mkNode type (VObj []) (VArr (flatten_children children))).
  { rewrite createElement_eq, Hfalsy. reflexivity. }
  split; [exact Heq|]. split; [|split].
  - intros anyProps. rewrite createElement_eq. cbn.
    destruct (truthy anyProps) eqn:Ht.
    + exists anyProps. split; [reflexivity|]. now destruct anyProps.
    + exists (VObj []). now split.
  - intros Htype fuel container rt. rewrite Heq.
    rewrite appendElement_host by exact Htype. reflexivity.
  - intros Htype fuel container rt. rewrite Heq.
    rewrite appendElement_unfold. cbn. rewrite Htype. reflexivity.
Qed.

(** *** What mounting does to its container *)

Lemma append_nodes_nil (c : element) : append_nodes c [] = c.
Proof. destruct c. unfold append_nodes, set_childNodes. cbn. now rewrite app_nil_r. Qed.

Lemma append_nodes_app (c : element) (ns ms : list dom_node) :
  append_nodes (append_nodes c ns) ms = append_nodes c (ns ++ ms).
Proof. unfold append_nodes, set_childNodes. cbn. now rewrite app_assoc. Qed.

Lemma appendChild_append_nodes (c : element) (n : dom_node) :
  appendChild c n = append_nodes c [n].
Proof. reflexivity. Qed.

Lemma forEachM_same_appended (f : value -> element * runtime -> outcome (element * runtime)) :
  forall items : list value,
  (forall child c1 c2 rt, same_appended c1 c2 (f child (c1, rt)) (f child (c2, rt))) ->
  forall c1 c2 rt,
    same_appended c1 c2 (forEachM f items (c1, rt)) (forEachM f items (c2, rt)).
Proof.
  intros items Hf. induction items as [|x items IH]; intros c1 c2 rt; cbn.
  - split; [reflexivity|]. exists []. now rewrite !append_nodes_nil.
  - specialize (Hf x c1 c2 rt). unfold same_appended in Hf.
    destruct (f x (c1, rt)) as [[c1' rt1]| |], (f x (c2, rt)) as [[c2' rt2]| |];
      cbn in *; try contradiction; try exact I.
    destruct Hf as [<- (ns & -> & ->)].
    specialize (IH (append_nodes c1 ns) (append_nodes c2 ns) rt1).
    unfold same_appended in *.
    destruct (forEachM f items (append_nodes c1 ns, rt1)) as [[d1 r1]| |],
             (forEachM f items (append_nodes c2 ns, rt1)) as [[d2 r2]| |];
      cbn in *; try contradiction; try exact I.
    destruct IH as [<- (ms & -> & ->)]. split; [reflexivity|].
    exists (ns ++ ms). now rewrite !append_nodes_app.
Qed.

(** The nodes that a mounting appends, and the state it leaves, do not
    depend on the container. *)
Lemma appendElement_same_appended (fuel : nat) :
  forall node c1 c2 rt,
    same_appended c1 c2 (appendElement fn name_in fuel node c1 rt)
                        (appendElement fn name_in fuel node c2 rt).
Proof.
  induction fuel as [|fuel IH]; intros node c1 c2 rt; [exact I|].
  rewrite !appendElement_unfold. cbv zeta.
  destruct (String.eqb (typeof node) "string" || String.eqb (typeof node) "number").
  { cbn. split; [reflexivity|]. eexists. split; apply appendChild_append_nodes. }
  destruct (Array_isArray node) eqn:Harr.
  { destruct node; try discriminate. cbn [Array_forEach].
    apply forEachM_same_appended. intros child d1 d2 rt0. apply IH. }
  destruct (get_prop node "type") as [type| |]; cbn [bind]; try exact I.
  destruct (String.eqb (typeof type) "function").
  - destruct (get_prop node "props") as [props| |]; cbn [bind]; try exact I.
    destruct (get_prop node "children") as [children| |]; cbn [bind]; try exact I.
    destruct (call_component fn type _ rt) as [[rendered rt']| |]; cbn [bind]; try exact I.
    apply IH.
  - destruct (get_prop node "props") as [props| |]; cbn [bind]; try exact I.
    destruct (Object_entries props) as [entries| |]; cbn [bind]; try exact I.
    destruct (apply_props name_in entries _) as [dom| |]; cbn [bind]; try exact I.
    destruct (get_prop node "children") as [children| |]; cbn [bind]; try exact I.
    destruct (Array_forEach children _ (dom, rt)) as [[dom' rt']| |]; cbn [bind];
      try exact I.
    cbn. split; [reflexivity|]. eexists. split; apply appendChild_append_nodes.
Qed.

Lemma appendElement_mounted (fuel : nat) (node : value) (c : element) (rt : runtime) :
  appendElement fn name_in fuel node c rt
  = let* r := mounted fn name_in fuel node rt in Ok (append_nodes c (fst r), snd r).
Proof.
  unfold mounted.
  pose proof (appendElement_same_appended fuel node c detached rt) as H.
  unfold same_appended in H.
  destruct (appendElement fn name_in fuel node c rt) as [[c' rt1]| |],
           (appendElement fn name_in fuel node detached rt) as [[d' rt2]| |];
    cbn in *; try contradiction; try reflexivity.
  destruct H as [<- (ns & -> & ->)]. reflexivity.
Qed.

Lemma forEachM_mounted_all (fuel : nat) (children : list value) (c : element) (rt : runtime) :
  forEachM (fun child s => appendElement fn name_in fuel child (fst s) (snd s))
    children (c, rt)
  = let* r := mounted_all fn name_in fuel children rt in
    Ok (append_nodes c (fst r), snd r).
Proof.
  unfold mounted_all.
  pose proof (forEachM_same_appended
                (fun child s => appendElement fn name_in fuel child (fst s) (snd s))
                children
                (fun child c1 c2 rt0 => appendElement_same_appended fuel child c1 c2 rt0)
                c detached rt) as H.
  unfold same_appended in H.
  destruct (forEachM _ children (c, rt)) as [[c' rt1]| |],
           (forEachM _ children (detached, rt)) as [[d' rt2]| |];
    cbn in *; try contradiction; try reflexivity.
  destruct H as [<- (ns & -> & ->)]. reflexivity.
Qed.

(** Mounting an array mounts its members in order into the container. *)
Lemma appendElement_array (fuel : nat) (items : list value) (c : element) (rt : runtime) :
  appendElement fn name_in (S fuel) (VArr items) c rt
  = let* r := mounted_all fn name_in fuel items rt in Ok (append_nodes c (fst r), snd r).
Proof. rewrite appendElement_unfold. cbn. apply forEachM_mounted_all. Qed.

(** C3: for every argument list of createElement, whatever arrays, null,
    false and undefined entries its children mix, the children of the
    node returned are the depth-first, order-preserving flattening of the
    arguments with every null, false and undefined entry removed; mounting
    the node does what mounting the node built from the flattened child
    list does; and the children of the host element it mounts are, in
    order, the host nodes that mounting the flattened list itself appends
    to a container. *)
Theorem createElement_flattens_children (type props : value) (children : list value) :
  get_prop (createElement type props children) "children"
    = Ok (VArr (flatten_children children))
  /\ createElement type props children
     = createElement type props (flatten_children children)
  /\ (forall fuel container rt,
        appendElement fn name_in fuel (createElement type props children) container rt
        = appendElement fn name_in fuel
            (createElement type props (flatten_children children)) container rt)
  /\ (forall fuel container rt,
        appendElement fn name_in (S fuel) (VArr (flatten_children children)) container rt
        = let* r := mounted_all fn name_in fuel (flatten_children children) rt in
          Ok (append_nodes container (fst r), snd r))
  /\ (String.eqb (typeof type) "function" = false ->
      forall fuel container rt,
        appendElement fn name_in (S fuel) (createElement type props children) container rt
        = let* entries := Object_entries (if truthy props then props else VObj []) in
          let* dom := apply_props name_in entries (document_createElement type) in
          let* r := mounted_all fn name_in fuel (flatten_children children) rt in
          Ok (appendChild container (ElementNode (append_nodes dom (fst r))), snd r)).
Proof.
  assert (Heq : createElement type props children
                = createElement type props (flatten_children children)).
  { rewrite !createElement_eq. now rewrite flatten_children_idempotent. }
  split; [|split; [|split; [|split]]].
  - rewrite createElement_eq. reflexivity.
  - exact Heq.
  - intros fuel container rt. now rewrite <- Heq.
  - intros fuel container rt. apply appendElement_array.
  - intros Htype fuel container rt. rewrite createElement_eq.
    rewrite appendElement_host by exact Htype.
    destruct (Object_entries (if truthy props then props else VObj [])) as [entries| |];
      cbn [bind]; try reflexivity.
    destruct (apply_props name_in entries (document_createElement type)) as [dom| |];
      cbn [bind]; try reflexivity.
    rewrite forEachM_mounted_all.
    destruct (mounted_all fn name_in fuel (flatten_children children) rt) as [[ns rt']| |];
      reflexivity.
Qed.

(** *** What a pass leaves alone *)

Lemma reframe_self (rt : runtime) :
  reframe (currentRootElement rt) (currentContainer rt) (containers rt) rt = rt.
Proof. now destruct rt. Qed.

Lemma useState_reframe root k d (initialValue : value) (rt : runtime) :
  useState initialValue (reframe root k d rt)
  = (fst (useState initialValue rt), reframe root k d (snd (useState initialValue rt))).
Proof.
  unfold useState. cbn.
  destruct (is_undefined (array_get (hookStates rt) (hookIndex rt))); reflexivity.
Qed.

Lemma run_reframe root k d (p : prog) :
  forall rt, run p (reframe root k d rt) = map_state (reframe root k d) (run p rt).
Proof.
  induction p as [v|initialValue cont IH|]; intros rt; cbn [run]; try reflexivity.
  rewrite useState_reframe.
  destruct (useState initialValue rt) as [[v setter] rt']. cbn [fst snd]. apply IH.
Qed.

Lemma forEachM_reframe {A : Type} (g : runtime -> runtime)
    (f : value -> A * runtime -> outcome (A * runtime)) (items : list value) :
  (forall child a rt, f child (a, g rt) = map_state g (f child (a, rt))) ->
  forall a rt, forEachM f items (a, g rt) = map_state g (forEachM f items (a, rt)).
Proof.
  intros Hf. induction items as [|x items IH]; intros a rt; cbn; [reflexivity|].
  rewrite Hf. destruct (f x (a, rt)) as [[a' rt']| |]; cbn; try reflexivity.
  apply IH.
Qed.

Lemma appendElement_reframe root k d (fuel : nat) :
  forall node c rt,
    appendElement fn name_in fuel node c (reframe root k d rt)
    = map_state (reframe root k d) (appendElement fn name_in fuel node c rt).
Proof.
  induction fuel as [|fuel IH]; intros node c rt; [reflexivity|].
  rewrite !appendElement_unfold. cbv zeta.
  destruct (String.eqb (typeof node) "string" || String.eqb (typeof node) "number");
    [reflexivity|].
  destruct (Array_isArray node) eqn:Harr.
  { destruct node; try discriminate. cbn [Array_forEach].
    apply (forEachM_reframe (reframe root k d)). intros child a rt0. apply IH. }
  destruct (get_prop node "type") as [type| |]; cbn [bind]; try reflexivity.
  destruct (String.eqb (typeof type) "function").
  - destruct (get_prop node "props") as [props| |]; cbn [bind]; try reflexivity.
    destruct (get_prop node "children") as [children| |]; cbn [bind]; try reflexivity.
    destruct type; cbn [call_component]; try reflexivity.
    rewrite run_reframe.
    destruct (run _ rt) as [[rendered rt']| |]; cbn; try reflexivity.
    apply IH.
  - destruct (get_prop node "props") as [props| |]; cbn [bind]; try reflexivity.
    destruct (Object_entries props) as [entries| |]; cbn [bind]; try reflexivity.
    destruct (apply_props name_in entries _) as [dom| |]; cbn [bind]; try reflexivity.
    destruct (get_prop node "children") as [children| |]; cbn [bind]; try reflexivity.
    destruct children; cbn [Array_forEach]; try reflexivity.
    rewrite (forEachM_reframe (reframe root k d)) by (intros child a rt0; apply IH).
    destruct (forEachM _ items (dom, rt)) as [[dom' rt']| |]; reflexivity.
Qed.

(** A pass keeps the retained session and the containers as they are. *)
Lemma appendElement_frame (fuel : nat) (node : value) (c c' : element) (rt rt' : runtime) :
  appendElement fn name_in fuel node c rt = Ok (c', rt') ->
  currentRootElement rt' = currentRootElement rt
  /\ currentContainer rt' = currentContainer rt
  /\ containers rt' = containers rt.
Proof.
  intros H. rewrite <- (reframe_self rt) in H.
  rewrite appendElement_reframe in H.
  destruct (appendElement fn name_in fuel node c rt) as [[c0 rt0]| |]; try discriminate.
  cbn in H. injection H as <- <-. now cbn.
Qed.

Lemma mounted_reframe root k d (fuel : nat) (node : value) (rt : runtime) :
  mounted fn name_in fuel node (reframe root k d rt)
  = map_state (reframe root k d) (mounted fn name_in fuel node rt).
Proof.
  unfold mounted. rewrite appendElement_reframe.
  destruct (appendElement fn name_in fuel node detached rt) as [[c rt']| |]; reflexivity.
Qed.

Lemma removeChildren_nil (children : list dom_node) : removeChildren children = [].
Proof. induction children; [reflexivity | assumption]. Qed.

(** *** Prop application *)

Lemma apply_example_props (tag : string) (f : value) :
  String.eqb (typeof f) "function" = true ->
  apply_props name_in (own_entries (example_props f)) (document_createElement (VStr tag))
  = Ok (mkElement (VStr tag) [("click", f)] [("class", VStr "x")]
          [("color", VStr "red")] [] []).
Proof. destruct f; intros Hf; try discriminate Hf; reflexivity. Qed.

(** C4: mounting a host node with props
    {className: "x", style: {color: "red"}, onClick: fn, disabled: undefined}
    appends a host element whose class attribute is "x", whose inline
    style color is "red", which has fn as a listener of the click event,
    and on which nothing named disabled was written, as attribute or as
    field; its children are those of the node, mounted in order. *)
Theorem host_props_applied (tag : string) (f : value) (children : list value) :
  String.eqb (typeof f) "function" = true ->
  let dom ns :=
    mkElement (VStr tag) [("click", f)] [("class", VStr "x")] [("color", VStr "red")] [] ns in
  (forall fuel container rt,
     appendElement fn name_in (S fuel)
       (createElement (VStr tag) (example_props f) children) container rt
     = let* r := mounted_all fn name_in fuel (flatten_children children) rt in
       Ok (appendChild container (ElementNode (dom (fst r))), snd r))
  /\ (forall fuel container rt,
        appendElement fn name_in (S fuel)
          (createElement (VStr tag) (example_props f) []) container rt
        = Ok (appendChild container (ElementNode (dom [])), rt))
  /\ (forall ns,
        get_field "class" (attributes (dom ns)) = VStr "x"
        /\ get_field "color" (style (dom ns)) = VStr "red"
        /\ In ("click", f) (listeners (dom ns))
        /\ ~ In "disabled" (map fst (attributes (dom ns)))
        /\ ~ In "disabled" (map fst (properties (dom ns)))).
Proof.
  intros Hf dom.
  assert (Hmount : forall cs fuel container rt,
            appendElement fn name_in (S fuel)
              (createElement (VStr tag) (example_props f) cs) container rt
            = let* r := mounted_all fn name_in fuel (flatten_children cs) rt in
              Ok (appendChild container (ElementNode (dom (fst r))), snd r)).
  { intros cs fuel container rt. rewrite createElement_eq.
    change (truthy (example_props f)) with true. cbv iota.
    rewrite appendElement_host by reflexivity.
    change (Object_entries (example_props f)) with (Ok (own_entries (example_props f))).
    cbn [bind]. rewrite apply_example_props by exact Hf. cbn [bind].
    rewrite forEachM_mounted_all.
    destruct (mounted_all fn name_in fuel (flatten_children cs) rt) as [[ns rt']| |];
      reflexivity. }
  split; [apply Hmount|]. split.
  - intros fuel container rt. rewrite Hmount. reflexivity.
  - intros ns. cbn. split; [reflexivity|]. split; [reflexivity|].
    split; [now left|]. split; [intros [H|[]]; discriminate H | intros []].
Qed.

(** *** render *)

Lemma mounted_same_hooks (fuel : nat) (node : value) (rt1 rt2 : runtime) :
  hookStates rt1 = hookStates rt2 ->
  hookIndex rt1 = hookIndex rt2 ->
  mounted fn name_in fuel node rt2
  = map_state (reframe (currentRootElement rt2) (currentContainer rt2) (containers rt2))
      (mounted fn name_in fuel node rt1).
Proof.
  intros Hs Hi. rewrite <- mounted_reframe. f_equal.
  destruct rt1, rt2; cbn in *; subst; reflexivity.
Qed.

(** [render] in terms of the nodes the pass produces. *)
Lemma render_mounted (fuel : nat) (element : value) (container : handle) (rt : runtime) :
  render fn name_in fuel element container rt
  = match containers rt !! container with
    | None => Fault
    | Some c =>
        let* r := mounted fn name_in fuel element (set_hookIndex 0 rt) in
        Ok (mkRuntime (hookStates (snd r)) (hookIndex (snd r)) element (Some container)
              (<[container := set_childNodes (fst r) c]> (containers rt)))
    end.
Proof.
  unfold render. cbn [containers set_currentContainer set_currentRootElement set_hookIndex].
  destruct (containers rt !! container) as [c|]; [|reflexivity].
  rewrite removeChildren_nil, appendElement_mounted.
  change (set_currentContainer (Some container)
            (set_currentRootElement element (set_hookIndex 0 rt)))
    with (reframe element (Some container) (containers rt) (set_hookIndex 0 rt)).
  rewrite mounted_reframe.
  destruct (mounted fn name_in fuel element (set_hookIndex 0 rt)) as [[ns rt']| |];
    reflexivity.
Qed.

(** C7: every call of render removes all the children the container had
    and leaves it with exactly the host nodes that materializing the
    element from nothing produces; the result does not depend on the
    host tree the container held before. *)
Theorem render_rebuilds_container (fuel : nat) (root : value) (container : handle)
    (rt : runtime) (c : element) :
  containers rt !! container = Some c ->
  render fn name_in fuel root container rt
  = (let* r := mounted fn name_in fuel root (set_hookIndex 0 rt) in
     Ok (mkRuntime (hookStates (snd r)) (hookIndex (snd r)) root (Some container)
           (<[container := set_childNodes (fst r) c]> (containers rt))))
  /\ forall previous,
       render fn name_in fuel root container
         (set_containers (<[container := set_childNodes previous c]> (containers rt)) rt)
       = render fn name_in fuel root container rt.
Proof.
  intros Hc. split.
  - rewrite render_mounted, Hc. reflexivity.
  - intros previous. rewrite !render_mounted, Hc.
    cbn [containers set_containers]. rewrite lookup_insert_eq.
    rewrite (mounted_same_hooks fuel root (set_hookIndex 0 rt)) by reflexivity.
    destruct (mounted fn name_in fuel root (set_hookIndex 0 rt)) as [[ns rt']| |];
      cbn; try reflexivity.
    rewrite insert_insert_eq. reflexivity.
Qed.

(** *** The hook slot store *)

Lemma array_get_set_eq (i : nat) (v : value) (a : list value) :
  array_get (array_set i v a) i = v.
Proof.
  unfold array_get, array_set. destruct (i <? length a)%nat eqn:Hlt.
  - apply Nat.ltb_lt in Hlt. now rewrite list_lookup_insert_eq.
  - apply Nat.ltb_ge in Hlt.
    rewrite lookup_app_r by exact Hlt.
    rewrite lookup_app_r by (rewrite length_replicate; lia).
    rewrite length_replicate.
    replace (i - length a - (i - length a))%nat with 0%nat by lia. reflexivity.
Qed.

Lemma array_get_set_ne (i j : nat) (v : value) (a : list value) :
  i <> j -> array_get (array_set i v a) j = array_get a j.
Proof.
  intros Hne. unfold array_get, array_set. destruct (i <? length a)%nat eqn:Hlt.
  - now rewrite list_lookup_insert_ne.
  - apply Nat.ltb_ge in Hlt.
    destruct (decide (j < length a)%nat) as [Hj|Hj].
    + now rewrite lookup_app_l.
    + rewrite (lookup_ge_None_2 a j) by lia.
      rewrite lookup_app_r by lia.
      destruct (decide (j - length a < i - length a)%nat) as [Hk|Hk].
      * rewrite lookup_app_l by (rewrite length_replicate; lia).
        rewrite lookup_replicate_2 by lia. reflexivity.
      * rewrite lookup_app_r by (rewrite length_replicate; lia).
        rewrite length_replicate.
        rewrite lookup_ge_None_2; [reflexivity|]. cbn. lia.
Qed.

Lemma is_undefined_true (v : value) : is_undefined v = true <-> v = VUndefined.
Proof. destruct v; cbn; split; intros H; congruence. Qed.

Lemma is_undefined_false (v : value) : is_undefined v = false <-> v <> VUndefined.
Proof. destruct v; cbn; split; intros H; congruence. Qed.

(** A hook call on a slot that holds undefined. *)
Lemma useState_seeds (initialValue : value) (rt : runtime) :
  array_get (hookStates rt) (hookIndex rt) = VUndefined ->
  useState initialValue rt
  = ((initialValue, VSetter (hookIndex rt)),
     set_hookIndex (S (hookIndex rt))
       (set_hookStates (array_set (hookIndex rt) initialValue (hookStates rt)) rt)).
Proof.
  intros H. unfold useState. rewrite H. cbn. now rewrite array_get_set_eq.
Qed.

(** A hook call on a slot that holds anything else. *)
Lemma useState_reads (initialValue : value) (rt : runtime) :
  array_get (hookStates rt) (hookIndex rt) <> VUndefined ->
  useState initialValue rt
  = ((array_get (hookStates rt) (hookIndex rt), VSetter (hookIndex rt)),
     set_hookIndex (S (hookIndex rt)) rt).
Proof.
  intros H. apply is_undefined_false in H. unfold useState. now rewrite H.
Qed.

(** C2, as amended: a useState call addressing a slot that holds undefined
    (a slot never written in particular) seeds the slot with the caller's
    initial argument and returns it; a useState call addressing a slot
    that holds any value other than undefined returns the stored value,
    ignores its initial argument and leaves the store as it is. *)
Theorem useState_seeds_once (initialValue : value) (rt : runtime) :
  (array_get (hookStates rt) (hookIndex rt) = VUndefined ->
     fst (fst (useState initialValue rt)) = initialValue
     /\ hookStates (snd (useState initialValue rt))
        = array_set (hookIndex rt) initialValue (hookStates rt)
     /\ array_get (hookStates (snd (useState initialValue rt))) (hookIndex rt)
        = initialValue)
  /\ (array_get (hookStates rt) (hookIndex rt) <> VUndefined ->
        fst (fst (useState initialValue rt)) = array_get (hookStates rt) (hookIndex rt)
        /\ hookStates (snd (useState initialValue rt)) = hookStates rt
        /\ forall otherInitial,
             useState otherInitial rt = useState initialValue rt).
Proof.
  split; intros H.
  - rewrite useState_seeds by exact H. cbn. now rewrite array_get_set_eq.
  - rewrite useState_reads by exact H. cbn. repeat split.
    intros otherInitial. now rewrite useState_reads.
Qed.

Lemma setState_unfold (fuel stateIndex : nat) (newValue : value) (rt : runtime) :
  setState fn name_in (S fuel) stateIndex newValue rt
  = let* rt :=
      if String.eqb (typeof newValue) "function" then
        let* r := call_updater fn name_in fuel newValue (array_get (hookStates rt) stateIndex) rt in
        Ok (set_hookStates (array_set stateIndex (fst r) (hookStates (snd r))) (snd r))
      else Ok (set_hookStates (array_set stateIndex newValue (hookStates rt)) rt) in
    rerender fn name_in fuel (set_hookIndex 0 rt).
Proof. reflexivity. Qed.

(** C10: the setter a useState call returns is bound to the slot index
    that was current when the call ran. Invoked in any later state, it
    writes that slot and no other: a value that is not callable is stored
    as it is, a callable is applied to the current value of that same
    slot and its result is stored; the re-render follows. *)
Theorem setter_targets_its_slot :
  (forall initialValue rt,
     snd (fst (useState initialValue rt)) = VSetter (hookIndex rt))
  /\ (forall fuel stateIndex newValue rt,
        String.eqb (typeof newValue) "function" = false ->
        setState fn name_in (S fuel) stateIndex newValue rt
        = rerender fn name_in fuel
            (set_hookIndex 0
               (set_hookStates (array_set stateIndex newValue (hookStates rt)) rt)))
  /\ (forall fuel stateIndex newValue rt result rt',
        String.eqb (typeof newValue) "function" = true ->
        call_updater fn name_in fuel newValue (array_get (hookStates rt) stateIndex) rt
          = Ok (result, rt') ->
        setState fn name_in (S fuel) stateIndex newValue rt
        = rerender fn name_in fuel
            (set_hookIndex 0
               (set_hookStates (array_set stateIndex result (hookStates rt')) rt')))
  /\ (forall stateIndex v (slots : list value),
        array_get (array_set stateIndex v slots) stateIndex = v
        /\ forall j, j <> stateIndex ->
             array_get (array_set stateIndex v slots) j = array_get slots j).
Proof.
  split; [|split; [|split]].
  - intros initialValue rt. unfold useState.
    destruct (is_undefined (array_get (hookStates rt) (hookIndex rt))); reflexivity.
  - intros fuel stateIndex newValue rt Hty. rewrite setState_unfold, Hty. reflexivity.
  - intros fuel stateIndex newValue rt result rt' Hty Hcall.
    rewrite setState_unfold, Hty, Hcall. reflexivity.
  - intros stateIndex v slots. split; [apply array_get_set_eq|].
    intros j Hj. now apply array_get_set_ne.
Qed.

(** *** A pass and the hook slot store *)

Lemma pass_rel_refl (rt : runtime) : pass_rel rt rt.
Proof. repeat split; auto. Qed.

Lemma pass_rel_trans (rt1 rt2 rt3 : runtime) :
  pass_rel rt1 rt2 -> pass_rel rt2 rt3 -> pass_rel rt1 rt3.
Proof.
  intros (Hi & Hlow & Hdef) (Hi' & Hlow' & Hdef'). split; [lia|]. split.
  - intros j Hj. rewrite Hlow' by lia. now apply Hlow.
  - intros j Hj. rewrite Hdef'; [now apply Hdef|]. now rewrite Hdef.
Qed.

Lemma useState_pass_rel (initialValue : value) (rt : runtime) :
  pass_rel rt (snd (useState initialValue rt)).
Proof.
  unfold useState, pass_rel, slot.
  destruct (is_undefined (array_get (hookStates rt) (hookIndex rt))) eqn:Hu; cbn.
  - apply is_undefined_true in Hu. split; [lia|]. split.
    + intros j Hj. apply array_get_set_ne. lia.
    + intros j Hj. apply array_get_set_ne. intros E. subst j. contradiction.
  - split; [lia|]. auto.
Qed.

Lemma framed_ext {A : Type} (m m' : runtime -> outcome (A * runtime)) :
  (forall rt, m rt = m' rt) -> framed m' -> framed m.
Proof. intros Hext Hm rt a rt' H. rewrite Hext in H. eauto. Qed.

Lemma framed_ret {A : Type} (a : A) : framed (fun rt => Ok (a, rt)).
Proof. intros rt a' rt' H. injection H as _ <-. apply pass_rel_refl. Qed.

Lemma framed_fault {A : Type} : framed (fun _ => @Fault (A * runtime)).
Proof. intros rt a rt' H. discriminate H. Qed.

Lemma framed_seq {A B : Type} (m : runtime -> outcome (A * runtime))
    (k : A -> runtime -> outcome (B * runtime)) :
  framed m -> (forall a, framed (k a)) ->
  framed (fun rt => let* r := m rt in k (fst r) (snd r)).
Proof.
  intros Hm Hk rt b rt' H.
  destruct (m rt) as [[a rt1]| |] eqn:Hm1; cbn in H; try discriminate H.
  eapply pass_rel_trans; [eapply Hm; exact Hm1 | eapply Hk; exact H].
Qed.

Lemma framed_run (p : prog) : framed (run p).
Proof.
  induction p as [v|initialValue cont IH|]; intros rt a rt' H; cbn [run] in H.
  - injection H as _ <-. apply pass_rel_refl.
  - pose proof (useState_pass_rel initialValue rt) as Hu.
    destruct (useState initialValue rt) as [[v setter] rt1]. cbn [snd] in Hu.
    eapply pass_rel_trans; [exact Hu | eapply IH; exact H].
  - discriminate H.
Qed.

Lemma framed_forEachM {A : Type} (f : value -> A * runtime -> outcome (A * runtime))
    (items : list value) :
  (forall child a, framed (fun rt => f child (a, rt))) ->
  forall a, framed (fun rt => forEachM f items (a, rt)).
Proof.
  intros Hf. induction items as [|x items IH]; intros a rt a' rt' H; cbn in H.
  - injection H as _ <-. apply pass_rel_refl.
  - destruct (f x (a, rt)) as [[a1 rt1]| |] eqn:Hx; cbn in H; try discriminate H.
    eapply pass_rel_trans; [eapply (Hf x a); exact Hx | eapply IH; exact H].
Qed.

Lemma framed_appendElement (fuel : nat) :
  forall node c, framed (appendElement fn name_in fuel node c).
Proof.
  induction fuel as [|fuel IH]; intros node c; [intros rt a rt' H; discriminate H|].
  eapply framed_ext; [intros rt; apply appendElement_unfold|]. cbv zeta.
  destruct (String.eqb (typeof node) "string" || String.eqb (typeof node) "number");
    [apply framed_ret|].
  destruct (Array_isArray node) eqn:Harr.
  { destruct node; try discriminate. cbn [Array_forEach].
    apply framed_forEachM. intros child a. exact (IH child a). }
  destruct (get_prop node "type") as [type| |]; cbn [bind];
    try (intros rt a rt' H; discriminate H).
  destruct (String.eqb (typeof type) "function").
  - destruct (get_prop node "props") as [props| |]; cbn [bind];
      try (intros rt a rt' H; discriminate H).
    destruct (get_prop node "children") as [children| |]; cbn [bind];
      try (intros rt a rt' H; discriminate H).
    apply (framed_seq (call_component fn type _)
             (fun rendered => appendElement fn name_in fuel rendered c)).
    + destruct type; try apply framed_fault. apply framed_run.
    + intros rendered. apply IH.
  - destruct (get_prop node "props") as [props| |]; cbn [bind];
      try (intros rt a rt' H; discriminate H).
    destruct (Object_entries props) as [entries| |]; cbn [bind];
      try (intros rt a rt' H; discriminate H).
    destruct (apply_props name_in entries _) as [dom| |]; cbn [bind];
      try (intros rt a rt' H; discriminate H).
    destruct (get_prop node "children") as [children| |]; cbn [bind];
      try (intros rt a rt' H; discriminate H).
    apply (framed_seq (fun rt => Array_forEach children _ (dom, rt))
             (fun dom' rt => Ok (appendChild c (ElementNode dom'), rt))).
    + destruct children; try apply framed_fault. cbn [Array_forEach].
      apply framed_forEachM. intros child a. exact (IH child a).
    + intros dom'. apply framed_ret.
Qed.

Lemma replays_ext {A : Type} (m m' : runtime -> outcome (A * runtime)) :
  (forall rt, m rt = m' rt) -> replays m' -> replays m.
Proof.
  intros Hext Hm rt a rt' H rt2 Hi Hs. rewrite Hext in H.
  destruct (Hm rt a rt' H rt2 Hi Hs) as (rt2' & H2 & Hrest).
  exists rt2'. now rewrite Hext.
Qed.

Lemma replays_ret {A : Type} (a : A) : replays (fun rt => Ok (a, rt)).
Proof.
  intros rt a' rt' H rt2 Hi Hs. injection H as <- <-.
  exists rt2. repeat split; auto.
Qed.

Lemma replays_fault {A : Type} : replays (fun _ => @Fault (A * runtime)).
Proof. intros rt a rt' H. discriminate H. Qed.

Lemma replays_seq {A B : Type} (m : runtime -> outcome (A * runtime))
    (k : A -> runtime -> outcome (B * runtime)) :
  framed m -> (forall a, framed (k a)) ->
  replays m -> (forall a, replays (k a)) ->
  replays (fun rt => let* r := m rt in k (fst r) (snd r)).
Proof.
  intros Fm Fk Rm Rk rt b rt' H rt2 Hi Hs.
  destruct (m rt) as [[a rt1]| |] eqn:Hm1; cbn in H; try discriminate H.
  destruct (Fm _ _ _ Hm1) as (Hle1 & _ & _).
  destruct (Fk a _ _ _ H) as (Hle2 & Hlow2 & _).
  destruct (Rm rt a rt1 Hm1 rt2 Hi) as (rt21 & Hm2 & Hi21 & Hs21).
  { intros j Hj. rewrite Hs by lia. apply Hlow2. lia. }
  destruct (Rk a rt1 b rt' H rt21 Hi21) as (rt2' & Hk2 & Hi2' & Hs2').
  { intros j Hj. rewrite Hs21. apply Hs. lia. }
  exists rt2'. rewrite Hm2. cbn. split; [exact Hk2|]. split; [exact Hi2'|].
  intros j. now rewrite Hs2', Hs21.
Qed.

Lemma framed_useState (initialValue : value) :
  framed (fun rt => Ok (useState initialValue rt)).
Proof.
  intros rt a rt' H.
  assert (E : useState initialValue rt = (a, rt')) by congruence.
  pose proof (useState_pass_rel initialValue rt) as Hu. now rewrite E in Hu.
Qed.

Lemma replays_useState (initialValue : value) :
  replays (fun rt => Ok (useState initialValue rt)).
Proof.
  intros rt a rt' H0 rt2 Hi Hs.
  assert (H : useState initialValue rt = (a, rt')) by congruence. clear H0.
  destruct (is_undefined (array_get (hookStates rt) (hookIndex rt))) eqn:Hu.
  - apply is_undefined_true in Hu. rewrite useState_seeds in H by exact Hu.
    injection H as <- <-. cbn in Hs.
    assert (Hslot : array_get (hookStates rt2) (hookIndex rt) = initialValue).
    { specialize (Hs (hookIndex rt)). unfold slot in Hs. cbn in Hs.
      rewrite array_get_set_eq in Hs. apply Hs. lia. }
    destruct (is_undefined initialValue) eqn:Hinit.
    + apply is_undefined_true in Hinit. subst initialValue.
      eexists. rewrite useState_seeds by (now rewrite Hi).
      rewrite Hi. split; [reflexivity|]. split; [reflexivity|].
      intros j. unfold slot. cbn.
      destruct (decide (hookIndex rt = j)) as [<-|Hne].
      * now rewrite array_get_set_eq.
      * now apply array_get_set_ne.
    + apply is_undefined_false in Hinit.
      eexists. rewrite useState_reads by (rewrite Hi, Hslot; exact Hinit).
      rewrite Hi, Hslot. split; [reflexivity|]. split; [reflexivity|].
      intros j. reflexivity.
  - apply is_undefined_false in Hu. rewrite useState_reads in H by exact Hu.
    injection H as <- <-. cbn in Hs.
    assert (Hslot : array_get (hookStates rt2) (hookIndex rt)
                    = array_get (hookStates rt) (hookIndex rt)).
    { specialize (Hs (hookIndex rt)). unfold slot in Hs. cbn in Hs. apply Hs. lia. }
    eexists. rewrite useState_reads by (rewrite Hi, Hslot; exact Hu).
    rewrite Hi, Hslot. split; [reflexivity|]. split; [reflexivity|].
    intros j. reflexivity.
Qed.

Lemma run_unfold_UseState (initialValue : value) (k : value -> value -> prog)
    (rt : runtime) :
  run (UseState initialValue k) rt
  = let* r := Ok (useState initialValue rt) in
    run (k (fst (fst r)) (snd (fst r))) (snd r).
Proof. cbn. now destruct (useState initialValue rt) as [[v s] rt']. Qed.

Lemma replays_run (p : prog) : replays (run p).
Proof.
  induction p as [v|initialValue cont IH|].
  - apply replays_ret.
  - eapply replays_ext; [intros rt; apply run_unfold_UseState|].
    apply (replays_seq (fun rt => Ok (useState initialValue rt))
             (fun a => run (cont (fst a) (snd a)))).
    + apply framed_useState.
    + intros a. apply framed_run.
    + apply replays_useState.
    + intros a. apply IH.
  - apply replays_fault.
Qed.

Lemma replays_forEachM {A : Type} (f : value -> A * runtime -> outcome (A * runtime))
    (items : list value) :
  (forall child a, framed (fun rt => f child (a, rt))) ->
  (forall child a, replays (fun rt => f child (a, rt))) ->
  forall a, replays (fun rt => forEachM f items (a, rt)).
Proof.
  intros Ff Rf. induction items as [|x items IH]; intros a.
  - apply replays_ret.
  - apply (replays_ext _ (fun rt => let* r := f x (a, rt) in
                                    forEachM f items (fst r, snd r))).
    { intros rt. cbn. destruct (f x (a, rt)) as [[a1 rt1]| |]; reflexivity. }
    apply (replays_seq (fun rt => f x (a, rt)) (fun a1 rt => forEachM f items (a1, rt))).
    + apply Ff.
    + intros a1. apply (framed_forEachM f items Ff a1).
    + apply Rf.
    + intros a1. apply IH.
Qed.

Lemma replays_appendElement (fuel : nat) :
  forall node c, replays (appendElement fn name_in fuel node c).
Proof.
  induction fuel as [|fuel IH]; intros node c; [intros rt a rt' H; discriminate H|].
  eapply replays_ext; [intros rt; apply appendElement_unfold|]. cbv zeta.
  destruct (String.eqb (typeof node) "string" || String.eqb (typeof node) "number");
    [apply replays_ret|].
  destruct (Array_isArray node) eqn:Harr.
  { destruct node; try discriminate. cbn [Array_forEach].
    apply replays_forEachM; intros child a.
    - exact (framed_appendElement fuel child a).
    - exact (IH child a). }
  destruct (get_prop node "type") as [type| |]; cbn [bind];
    try (intros rt a rt' H; discriminate H).
  destruct (String.eqb (typeof type) "function").
  - destruct (get_prop node "props") as [props| |]; cbn [bind];
      try (intros rt a rt' H; discriminate H).
    destruct (get_prop node "children") as [children| |]; cbn [bind];
      try (intros rt a rt' H; discriminate H).
    apply (replays_seq (call_component fn type _)
             (fun rendered => appendElement fn name_in fuel rendered c)).
    + destruct type; try apply framed_fault. apply framed_run.
    + intros rendered. apply framed_appendElement.
    + destruct type; try apply replays_fault. apply replays_run.
    + intros rendered. apply IH.
  - destruct (get_prop node "props") as [props| |]; cbn [bind];
      try (intros rt a rt' H; discriminate H).
    destruct (Object_entries props) as [entries| |]; cbn [bind];
      try (intros rt a rt' H; discriminate H).
    destruct (apply_props name_in entries _) as [dom| |]; cbn [bind];
      try (intros rt a rt' H; discriminate H).
    destruct (get_prop node "children") as [children| |]; cbn [bind];
      try (intros rt a rt' H; discriminate H).
    apply (replays_seq (fun rt => Array_forEach children _ (dom, rt))
             (fun dom' rt => Ok (appendChild c (ElementNode dom'), rt))).
    + destruct children; try apply framed_fault. cbn [Array_forEach].
      apply framed_forEachM. intros child a. exact (framed_appendElement fuel child a).
    + intros dom'. apply framed_ret.
    + destruct children; try apply replays_fault. cbn [Array_forEach].
      apply replays_forEachM; intros child a.
      * exact (framed_appendElement fuel child a).
      * exact (IH child a).
    + intros dom'. apply replays_ret.
Qed.

Lemma framed_mounted (fuel : nat) (node : value) : framed (mounted fn name_in fuel node).
Proof.
  apply (framed_seq (appendElement fn name_in fuel node detached)
           (fun c rt => Ok (childNodes c, rt))).
  - apply framed_appendElement.
  - intros c. apply framed_ret.
Qed.

Lemma replays_mounted (fuel : nat) (node : value) : replays (mounted fn name_in fuel node).
Proof.
  apply (replays_seq (appendElement fn name_in fuel node detached)
           (fun c rt => Ok (childNodes c, rt))).
  - apply framed_appendElement.
  - intros c. apply framed_ret.
  - apply replays_appendElement.
  - intros c. apply replays_ret.
Qed.

(** C6: the components of the model are functions of their props that
    touch the hook slot store through useState only. When a call of
    render(node, container) has returned, calling it again at once
    returns too and leaves every container, the target included, with
    exactly the host tree the first call left, and every hook slot with
    the value it had. *)
Theorem render_twice_same_tree (fuel : nat) (root : value) (container : handle)
    (rt rt1 : runtime) :
  render fn name_in fuel root container rt = Ok rt1 ->
  exists rt2,
    render fn name_in fuel root container rt1 = Ok rt2
    /\ containers rt2 = containers rt1
    /\ (forall j, slot rt2 j = slot rt1 j).
Proof.
  intros H. rewrite render_mounted in H.
  destruct (containers rt !! container) as [c|] eqn:Hc; [|discriminate H].
  destruct (mounted fn name_in fuel root (set_hookIndex 0 rt)) as [[ns rt']| |] eqn:Hm;
    cbn in H; try discriminate H.
  injection H as <-.
  destruct (replays_mounted fuel root _ _ _ Hm
              (set_hookIndex 0
                 (mkRuntime (hookStates rt') (hookIndex rt') root (Some container)
                    (<[container := set_childNodes ns c]> (containers rt)))))
    as (rt2' & Hm2 & Hi2 & Hs2).
  { reflexivity. }
  { intros j _. reflexivity. }
  rewrite render_mounted. cbn [containers]. rewrite lookup_insert_eq, Hm2. cbn.
  eexists. split; [reflexivity|]. cbn. split.
  - rewrite insert_insert_eq. reflexivity.
  - intros j. exact (Hs2 j).
Qed.

(** C5, as amended: every call of render resets the hook index to zero,
    whatever it was, and starts the pass on the store as it stands; when
    the call returns, every slot that held a value other than undefined
    still holds it, and a hook call that addresses such a slot reads that
    value back and writes nothing. *)
Theorem render_keeps_stored_values :
  (forall fuel root container rt n,
     render fn name_in fuel root container (set_hookIndex n rt)
     = render fn name_in fuel root container rt)
  /\ (forall fuel root container rt,
        render fn name_in fuel root container rt
        = match containers rt !! container with
          | None => Fault
          | Some c =>
              let* r := mounted fn name_in fuel root (set_hookIndex 0 rt) in
              Ok (mkRuntime (hookStates (snd r)) (hookIndex (snd r)) root (Some container)
                    (<[container := set_childNodes (fst r) c]> (containers rt)))
          end)
  /\ (forall fuel root container rt rt',
        render fn name_in fuel root container rt = Ok rt' ->
        forall j, slot rt j <> VUndefined -> slot rt' j = slot rt j)
  /\ (forall fuel node c rt c' rt',
        appendElement fn name_in fuel node c rt = Ok (c', rt') ->
        forall j, slot rt j <> VUndefined -> slot rt' j = slot rt j)
  /\ (forall initialValue rt,
        slot rt (hookIndex rt) <> VUndefined ->
        fst (fst (useState initialValue rt)) = slot rt (hookIndex rt)
        /\ hookStates (snd (useState initialValue rt)) = hookStates rt).
Proof.
  split; [|split; [|split; [|split]]].
  - intros fuel root container rt n. reflexivity.
  - intros fuel root container rt. apply render_mounted.
  - intros fuel root container rt rt' H j Hj. rewrite render_mounted in H.
    destruct (containers rt !! container) as [c|]; [|discriminate H].
    destruct (mounted fn name_in fuel root (set_hookIndex 0 rt)) as [[ns rt1]| |] eqn:Hm;
      cbn in H; try discriminate H.
    injection H as <-.
    destruct (framed_mounted fuel root _ _ _ Hm) as (_ & _ & Hdef).
    exact (Hdef j Hj).
  - intros fuel node c rt c' rt' H j Hj.
    destruct (framed_appendElement fuel node c _ _ _ H) as (_ & _ & Hdef).
    exact (Hdef j Hj).
  - intros initialValue rt H. unfold slot in *.
    rewrite useState_reads by exact H. split; reflexivity.
Qed.

(** *** Fuel *)

Lemma forEachM_mono {A S : Type} (f g : A -> S -> outcome S) (l : list A) :
  (forall x s r, f x s = Ok r -> g x s = Ok r) ->
  forall s r, forEachM f l s = Ok r -> forEachM g l s = Ok r.
Proof.
  intros Hfg. induction l as [|x l IH]; intros s r H; cbn in *; [exact H|].
  destruct (f x s) as [s'| |] eqn:Hx; cbn in H; try discriminate H.
  rewrite (Hfg _ _ _ Hx). cbn. now apply IH.
Qed.

Lemma appendElement_more_fuel (fuel : nat) :
  forall node c rt r,
    appendElement fn name_in fuel node c rt = Ok r ->
    appendElement fn name_in (S fuel) node c rt = Ok r.
Proof.
  induction fuel as [|fuel IH]; intros node c rt r H; [discriminate H|].
  rewrite appendElement_unfold in H. rewrite appendElement_unfold.
  cbv zeta in *.
  destruct (String.eqb (typeof node) "string" || String.eqb (typeof node) "number");
    [exact H|].
  destruct (Array_isArray node) eqn:Harr.
  { destruct node; try discriminate. cbn [Array_forEach] in *.
    revert H. apply forEachM_mono. intros x s r0. apply IH. }
  destruct (get_prop node "type") as [type| |]; cbn [bind] in *; try discriminate H.
  destruct (String.eqb (typeof type) "function").
  - destruct (get_prop node "props") as [props| |]; cbn [bind] in *; try discriminate H.
    destruct (get_prop node "children") as [children| |]; cbn [bind] in *;
      try discriminate H.
    destruct (call_component fn type _ rt) as [[rendered rt']| |]; cbn [bind] in *;
      try discriminate H.
    now apply IH.
  - destruct (get_prop node "props") as [props| |]; cbn [bind] in *; try discriminate H.
    destruct (Object_entries props) as [entries| |]; cbn [bind] in *; try discriminate H.
    destruct (apply_props name_in entries _) as [dom| |]; cbn [bind] in *;
      try discriminate H.
    destruct (get_prop node "children") as [children| |]; cbn [bind] in *;
      try discriminate H.
    destruct children; cbn [Array_forEach] in *; try discriminate H.
    destruct (forEachM _ items (dom, rt)) as [s| |] eqn:Hs; cbn [bind] in H;
      try discriminate H.
    erewrite forEachM_mono; [exact H | | exact Hs].
    intros x s0 r0. apply IH.
Qed.

Lemma mounted_fuel_le (fuel fuel' : nat) (node : value) (rt : runtime)
    (r : list dom_node * runtime) :
  (fuel <= fuel')%nat ->
  mounted fn name_in fuel node rt = Ok r ->
  mounted fn name_in fuel' node rt = Ok r.
Proof.
  intros Hle. induction Hle as [|fuel' _ IH]; [auto|].
  intros H. specialize (IH H). unfold mounted in *.
  destruct (appendElement fn name_in fuel' node detached rt) as [s| |] eqn:Hs;
    cbn in IH; try discriminate IH.
  now rewrite (appendElement_more_fuel _ _ _ _ _ Hs).
Qed.

(** *** A counter *)

Section CounterScenario.

(** A component that calls the state hook once, with initial value 0,
    and returns a tree built from its props, the value and the setter;
    mounting that tree calls no hook. The updater is prev => prev + 1. *)
Variables (Counter increment : fname) (captured : list value).
Variable view : value -> value -> value -> value.
Variable shown : value -> Z -> list dom_node.
Variable N : nat.

Hypothesis Hcounter : forall arg,
  fn Counter captured arg
  = UseState (VNum 0) (fun count setCount => Return (view arg count setCount)).
Hypothesis Hincrement : forall n, fn increment [] (VNum n) = Return (VNum (n + 1)).
Hypothesis Hview : forall arg n rt,
  mounted fn name_in N (view arg (VNum n) (VSetter 0)) rt = Ok (shown arg n, rt).

Variables (props : value) (children : list value) (container : handle).

(** The root element, and the argument the component is called with. *)
Local Abbreviation root := (createElement (VFun Counter captured) props children).
Local Abbreviation arg :=
  (Object_assign []
     [if truthy props then props else VObj [];
      VObj [("children", VArr (flatten_children children))]]).

Lemma mounted_counter (fuel : nat) (rt : runtime) :
  (N + 1 <= fuel)%nat ->
  hookIndex rt = 0%nat ->
  mounted fn name_in fuel root rt
  = let r := useState (VNum 0) rt in
    mounted fn name_in (fuel - 1) (view arg (fst (fst r)) (VSetter 0)) (snd r).
Proof.
  intros Hfuel Hidx. destruct fuel as [|fuel]; [lia|].
  replace (S fuel - 1)%nat with fuel by lia.
  unfold mounted at 1. rewrite createElement_eq, appendElement_unfold.
  cbn [typeof String.eqb Ascii.eqb Bool.eqb orb Array_isArray mkNode get_prop
       get_field bind call_component].
  cbv zeta. rewrite Hcounter. cbn [run].
  destruct (useState (VNum 0) rt) as [[v setter] rt1] eqn:Hu. cbn [fst snd bind].
  rewrite appendElement_mounted.
  assert (Hsetter : setter = VSetter 0).
  { revert Hu. unfold useState. rewrite Hidx.
    destruct (is_undefined _); intros Hu; injection Hu as _ <- _; reflexivity. }
  subst setter.
  destruct (mounted fn name_in fuel _ rt1) as [[ns rt2]| |];
    cbn; rewrite ?append_nodes_nil; reflexivity.
Qed.

Lemma render_counter_first (fuel : nat) (rt : runtime) (c0 : element) :
  (N + 1 <= fuel)%nat ->
  containers rt !! container = Some c0 ->
  slot rt 0 = VUndefined ->
  render fn name_in fuel root container rt
  = Ok (mkRuntime (array_set 0 (VNum 0) (hookStates rt)) 1 root (Some container)
          (<[container := set_childNodes (shown arg 0) c0]> (containers rt))).
Proof.
  intros Hfuel Hc Hslot. rewrite render_mounted, Hc.
  rewrite mounted_counter by (try exact Hfuel; reflexivity).
  rewrite useState_seeds by exact Hslot. cbn [fst snd].
  rewrite (mounted_fuel_le N (fuel - 1) _ _ _ ltac:(lia) (Hview _ 0%Z _)).
  reflexivity.
Qed.

Lemma render_counter_again (fuel : nat) (rt : runtime) (c0 : element) (n : Z) :
  (N + 1 <= fuel)%nat ->
  containers rt !! container = Some c0 ->
  slot rt 0 = VNum n ->
  render fn name_in fuel root container rt
  = Ok (mkRuntime (hookStates rt) 1 root (Some container)
          (<[container := set_childNodes (shown arg n) c0]> (containers rt))).
Proof.
  intros Hfuel Hc Hslot. rewrite render_mounted, Hc.
  rewrite mounted_counter by (try exact Hfuel; reflexivity).
  rewrite useState_reads by (cbn; unfold slot in Hslot; rewrite Hslot; discriminate).
  cbn [fst snd hookStates hookIndex set_hookIndex].
  unfold slot in Hslot. rewrite Hslot.
  rewrite (mounted_fuel_le N (fuel - 1) _ _ _ ltac:(lia) (Hview _ n _)).
  reflexivity.
Qed.

(** One call of the setter with the updater: the slot is written, then
    the retained root is rendered again. *)
Lemma press_counter (fuel : nat) (rt : runtime) (n : Z) :
  slot rt 0 = VNum n ->
  currentRootElement rt = root ->
  currentContainer rt = Some container ->
  setState fn name_in (S fuel) 0 (VFun increment []) rt
  = render fn name_in fuel root container
      (set_hookStates (array_set 0 (VNum (n + 1)) (hookStates rt)) rt).
Proof.
  intros Hslot Hroot Hcont. rewrite setState_unfold.
  cbn [typeof String.eqb Ascii.eqb Bool.eqb call_updater].
  unfold slot in Hslot. rewrite Hslot, Hincrement. cbn [run bind fst snd].
  unfold rerender. cbn [currentContainer set_hookIndex set_hookStates currentRootElement].
  rewrite Hcont, Hroot. reflexivity.
Qed.

(** C1: the component calls the state hook once with initial value 0;
    after the first render, its setter is invoked K times with the
    updater prev => prev + 1, each call after the previous returned.
    The K calls return, the slot then holds K and the container shows
    the tree of the value K; since this holds for every K, the k-th
    call leaves the value k on display for k = 1, ..., K. Each call
    writes the slot and runs a render of its own on the store it just
    wrote. *)
Theorem counter_counts (c : element) (rt0 : runtime) (fuel : nat) :
  slot rt0 0 = VUndefined ->
  containers rt0 !! container = Some c ->
  (N + 1 <= fuel)%nat ->
  forall K : nat, exists rtK,
    (let* rt1 := render fn name_in fuel root container rt0 in
     invoke fn name_in (S fuel) K 0 (VFun increment []) rt1) = Ok rtK
    /\ slot rtK 0 = VNum (Z.of_nat K)
    /\ containers rtK !! container
       = Some (set_childNodes (shown arg (Z.of_nat K)) c)
    /\ currentRootElement rtK = root
    /\ currentContainer rtK = Some container
    /\ setState fn name_in (S fuel) 0 (VFun increment []) rtK
       = render fn name_in fuel root container
           (set_hookStates (array_set 0 (VNum (Z.of_nat K + 1)) (hookStates rtK)) rtK).
Proof.
  intros Hslot Hc Hfuel K.
  rewrite (render_counter_first fuel rt0 c Hfuel Hc Hslot). cbn [bind].
  induction K as [|K IH].
  - eexists. split; [reflexivity|]. split; [|split; [|split; [|split]]].
    + unfold slot. cbn. apply array_get_set_eq.
    + cbn. now rewrite lookup_insert_eq.
    + reflexivity.
    + reflexivity.
    + apply press_counter; try reflexivity.
      unfold slot. cbn. apply array_get_set_eq.
  - destruct IH as (rtK & Hinv & HslotK & HcK & Hroot & Hcont & Hpress).
    cbn [invoke]. rewrite Hinv. cbn [bind]. rewrite Hpress.
    assert (Hnext : slot (set_hookStates
                            (array_set 0 (VNum (Z.of_nat K + 1)) (hookStates rtK)) rtK) 0
                    = VNum (Z.of_nat (S K))).
    { unfold slot. cbn. rewrite array_get_set_eq. f_equal. lia. }
    erewrite render_counter_again; [|exact Hfuel|exact HcK|exact Hnext].
    eexists. split; [reflexivity|]. split; [|split; [|split; [|split]]].
    + exact Hnext.
    + cbn. now rewrite lookup_insert_eq.
    + reflexivity.
    + reflexivity.
    + apply press_counter; try reflexivity. exact Hnext.
Qed.

End CounterScenario.

End RendererFacts.

(** ** The loaders *)

Section LoaderFacts.

Variable JSON_parse : string -> completion value.
Variable date_diff : value -> value -> option Z.
Variable localeCompare : string -> value -> Z.
Variable Array_sort :
  (value -> value -> completion (option Z)) -> list value -> completion (list value).

(** C8: neither loader ever throws. When parsing the stored workout
    entries throws, or sorting the parsed payload throws, loadEntries
    logs the fault and returns the empty list; when parsing the stored
    plan throws, loadPlan logs the fault and returns null. *)
Theorem loaders_absorb_faults :
  (forall localStorage log, exists v log',
     loadEntries JSON_parse date_diff localeCompare Array_sort localStorage log
     = Normal (v, log'))
  /\ (forall localStorage log, exists v log',
        loadPlan JSON_parse localStorage log = Normal (v, log'))
  /\ (forall (localStorage : gmap string string) log d err,
        present (localStorage !! "workoutEntries") = Some d ->
        (JSON_parse d = Throw err
         \/ exists entries,
              JSON_parse d = Normal entries
              /\ sort_entries date_diff localeCompare Array_sort entries = Throw err) ->
        loadEntries JSON_parse date_diff localeCompare Array_sort localStorage log
        = Normal (VArr [], log ++ [("Failed to load entries:", err)]))
  /\ (forall (localStorage : gmap string string) log d err,
        present (localStorage !! "workoutPlan") = Some d ->
        JSON_parse d = Throw err ->
        loadPlan JSON_parse localStorage log
        = Normal (VNull, log ++ [("Failed to load plan:", err)])).
Proof.
  split; [|split; [|split]].
  - intros localStorage log. unfold loadEntries.
    destruct (present (localStorage !! "workoutEntries")) as [d|]; cbn; [|eauto].
    destruct (JSON_parse d) as [entries|err]; cbn; [|eauto].
    destruct (sort_entries date_diff localeCompare Array_sort entries) as [sorted|err];
      cbn; eauto.
  - intros localStorage log. unfold loadPlan.
    destruct (present (localStorage !! "workoutPlan")) as [d|]; cbn; [|eauto].
    destruct (JSON_parse d) as [plan|err]; cbn; eauto.
  - intros localStorage log d err Hd [Hparse|(entries & Hparse & Hsort)];
      unfold loadEntries; rewrite Hd, Hparse; cbn; [reflexivity|].
    rewrite Hsort. reflexivity.
  - intros localStorage log d err Hd Hparse.
    unfold loadPlan. rewrite Hd, Hparse. reflexivity.
Qed.

End LoaderFacts.

(** ** The model at work *)

Example demo_first_render :
  render demo_fn demo_name_in 3 demo_root 0 demo_rt0 = Ok demo_rt1.
Proof. vm_compute. reflexivity. Qed.

(** Three clicks: the button reads 3. *)
Example demo_three_clicks :
  exists rt3,
    invoke demo_fn demo_name_in 4 3 0 (VFun "inc" []) demo_rt1 = Ok rt3
    /\ hookStates rt3 = [VNum 3]
    /\ containers rt3 !! 0%nat
       = Some (set_childNodes
                 [ElementNode
                    (mkElement (VStr "button") [("click", VFun "onClick" [VSetter 0])]
                       [] [] [] [TextNode "3"])]
                 demo_container).
Proof. eexists. split; [vm_compute; reflexivity|]. split; reflexivity. Qed.

(** A setter handed undefined: the render it triggers seeds the slot again. *)
Example demo_set_undefined :
  exists rt2,
    setState demo_fn demo_name_in 4 0 VUndefined demo_rt1 = Ok rt2
    /\ hookStates rt2 = [VNum 0].
Proof. eexists. split; [vm_compute; reflexivity|]. reflexivity. Qed.

Lemma createElement_flattens_children_witness :
  String.eqb (typeof (VStr "ul")) "function" = false
  /\ appendElement demo_fn demo_name_in 2
       (createElement (VStr "ul") VNull [VArr [VNull; VStr "a"; VArr [VBool false; VNum 3]]])
       demo_container demo_rt0
     = Ok (appendChild demo_container
             (ElementNode
                (mkElement (VStr "ul") [] [] [] [] [TextNode "a"; TextNode "3"])),
           demo_rt0)
  /\ appendElement demo_fn demo_name_in 2 (VArr [VStr "a"; VNum 3]) demo_container demo_rt0
     = Ok (append_nodes demo_container [TextNode "a"; TextNode "3"], demo_rt0).
Proof.
  destruct (createElement_flattens_children demo_fn demo_name_in (VStr "ul") VNull
              [VArr [VNull; VStr "a"; VArr [VBool false; VNum 3]]])
    as (_ & _ & _ & Harr & Hhost).
  split; [reflexivity|]. split.
  - rewrite (Hhost eq_refl 1%nat demo_container demo_rt0). reflexivity.
  - exact (Harr 1%nat demo_container demo_rt0).
Defined.

Lemma createElement_falsy_props_witness :
  truthy VNull = false
  /\ createElement (VStr "div") VNull [VStr "a"; VNull]
     = mkNode (VStr "div") (VObj []) (VArr [VStr "a"])
  /\ appendElement demo_fn demo_name_in 2
       (createElement (VStr "div") VNull [VStr "a"; VNull]) demo_container demo_rt0
     = Ok (appendChild demo_container
             (ElementNode (mkElement (VStr "div") [] [] [] [] [TextNode "a"])),
           demo_rt0).
Proof.
  destruct (createElement_falsy_props demo_fn demo_name_in
              (VStr "div") VNull [VStr "a"; VNull] eq_refl) as (H1 & _ & H3 & _).
  split; [reflexivity|]. split; [exact H1|].
  rewrite (H3 eq_refl 1%nat demo_container demo_rt0). reflexivity.
Defined.

Lemma host_props_applied_witness :
  String.eqb (typeof (VSetter 0)) "function" = true
  /\ appendElement demo_fn demo_name_in 1
       (createElement (VStr "button") (example_props (VSetter 0)) [])
       demo_container demo_rt0
     = Ok (appendChild demo_container
             (ElementNode
                (mkElement (VStr "button") [("click", VSetter 0)] [("class", VStr "x")]
                   [("color", VStr "red")] [] [])),
           demo_rt0).
Proof.
  split; [reflexivity|].
  exact (proj1 (proj2 (host_props_applied demo_fn demo_name_in "button" (VSetter 0) []
                         eq_refl)) 0%nat demo_container demo_rt0).
Defined.

Lemma render_rebuilds_container_witness :
  containers demo_rt1 !! 0%nat = Some (set_childNodes (demo_shown VNull 0) demo_container)
  /\ render demo_fn demo_name_in 3 (VStr "bye") 0 demo_rt1
     = Ok (mkRuntime [VNum 0] 0 (VStr "bye") (Some 0%nat)
             {[ 0%nat := set_childNodes [TextNode "bye"] demo_container ]}).
Proof.
  split; [reflexivity|].
  rewrite (proj1 (render_rebuilds_container demo_fn demo_name_in 3 (VStr "bye") 0 demo_rt1
                    (set_childNodes (demo_shown VNull 0) demo_container) eq_refl)).
  vm_compute. reflexivity.
Defined.

Lemma render_twice_same_tree_witness :
  render demo_fn demo_name_in 3 demo_root 0 demo_rt0 = Ok demo_rt1
  /\ exists rt2,
       render demo_fn demo_name_in 3 demo_root 0 demo_rt1 = Ok rt2
       /\ containers rt2 = containers demo_rt1.
Proof.
  split; [exact demo_first_render|].
  destruct (render_twice_same_tree demo_fn demo_name_in 3 demo_root 0 demo_rt0 demo_rt1
              demo_first_render) as (rt2 & H2 & Hc & _).
  exists rt2. split; assumption.
Defined.

Lemma counter_counts_witness :
  slot demo_rt0 0 = VUndefined
  /\ containers demo_rt0 !! 0%nat = Some demo_container
  /\ exists rt3,
       (let* rt1 := render demo_fn demo_name_in 3 demo_root 0 demo_rt0 in
        invoke demo_fn demo_name_in 4 3 0 (VFun "inc" []) rt1) = Ok rt3
       /\ slot rt3 0 = VNum 3
       /\ containers rt3 !! 0%nat
          = Some (set_childNodes
                    [ElementNode
                       (mkElement (VStr "button")
                          [("click", VFun "onClick" [VSetter 0])] [] [] []
                          [TextNode "3"])]
                    demo_container).
Proof.
  split; [reflexivity|]. split; [reflexivity|].
  destruct (counter_counts demo_fn demo_name_in "Counter" "inc" [] demo_view demo_shown 2
              (fun arg => eq_refl) (fun n => eq_refl) (fun arg n rt => eq_refl)
              VNull [] 0%nat demo_container demo_rt0 3%nat eq_refl eq_refl (le_n 3) 3%nat)
    as (rt3 & Hrun & Hslot & Hshown & _).
  exists rt3. split; [exact Hrun|]. split; [exact Hslot|]. exact Hshown.
Defined.

Lemma useState_seeds_once_witness :
  array_get (hookStates demo_rt0) (hookIndex demo_rt0) = VUndefined
  /\ fst (fst (useState (VNum 7) demo_rt0)) = VNum 7
  /\ array_get (hookStates (set_hookIndex 0 demo_rt1)) 0 <> VUndefined
  /\ fst (fst (useState (VNum 7) (set_hookIndex 0 demo_rt1))) = VNum 0.
Proof.
  split; [reflexivity|].
  split; [exact (proj1 (proj1 (useState_seeds_once (VNum 7) demo_rt0) eq_refl))|].
  assert (H : array_get (hookStates (set_hookIndex 0 demo_rt1)) 0 <> VUndefined)
    by discriminate.
  split; [exact H|].
  exact (proj1 (proj2 (useState_seeds_once (VNum 7) (set_hookIndex 0 demo_rt1)) H)).
Defined.

(** C2, as stated, fails: the first call seeds slot 0 with its initial
    argument undefined; on a later render the call at slot 0 returns its own
    initial argument 5, not the undefined that is stored. *)
Lemma useState_stored_undefined_reseeded :
  let first := useState VUndefined (initial_runtime ∅) in
  let later := set_hookIndex 0 (snd first) in
  hookStates later = [VUndefined]
  /\ (hookIndex later < length (hookStates later))%nat
  /\ fst (fst (useState (VNum 5) later)) = VNum 5
  /\ fst (fst (useState (VNum 5) later)) <> array_get (hookStates later) (hookIndex later).
Proof.
  cbn. split; [reflexivity|]. split; [lia|]. split; [reflexivity|]. discriminate.
Qed.

Lemma render_keeps_stored_values_witness :
  render demo_fn demo_name_in 3 demo_root 0 demo_rt1
  = Ok (mkRuntime [VNum 0] 1 demo_root (Some 0%nat) (containers demo_rt1))
  /\ slot demo_rt1 0 <> VUndefined
  /\ slot (mkRuntime [VNum 0] 1 demo_root (Some 0%nat) (containers demo_rt1)) 0
     = slot demo_rt1 0.
Proof.
  assert (H : render demo_fn demo_name_in 3 demo_root 0 demo_rt1
              = Ok (mkRuntime [VNum 0] 1 demo_root (Some 0%nat) (containers demo_rt1)))
    by (vm_compute; reflexivity).
  assert (Hdef : slot demo_rt1 0 <> VUndefined) by discriminate.
  split; [exact H|]. split; [exact Hdef|].
  exact (proj1 (proj2 (proj2 (render_keeps_stored_values demo_fn demo_name_in)))
           3%nat demo_root 0%nat demo_rt1 _ H 0%nat Hdef).
Defined.

(** C5, as stated, fails: the setter of slot 0 wrote undefined; the render
    that follows returns with 0 in slot 0, and the hook call of the pass
    read 0, not the undefined that was stored. *)
Lemma render_reseeds_stored_undefined :
  let written := set_hookStates (array_set 0 VUndefined (hookStates demo_rt1)) demo_rt1 in
  hookStates written = [VUndefined]
  /\ setState demo_fn demo_name_in 4 0 VUndefined demo_rt1
     = render demo_fn demo_name_in 3 demo_root 0 written
  /\ exists rt',
       render demo_fn demo_name_in 3 demo_root 0 written = Ok rt'
       /\ slot rt' 0 = VNum 0
       /\ slot rt' 0 <> slot written 0
       /\ containers rt' !! 0%nat
          = Some (set_childNodes (demo_shown VNull 0) demo_container).
Proof.
  cbv zeta. split; [reflexivity|]. split; [reflexivity|].
  eexists. split; [vm_compute; reflexivity|].
  split; [reflexivity|]. split; [discriminate|]. reflexivity.
Qed.

Lemma setter_targets_its_slot_witness :
  String.eqb (typeof (VNum 9)) "function" = false
  /\ setState demo_fn demo_name_in 4 0 (VNum 9) demo_rt1
     = rerender demo_fn demo_name_in 3
         (set_hookIndex 0 (set_hookStates (array_set 0 (VNum 9) (hookStates demo_rt1)) demo_rt1))
  /\ String.eqb (typeof (VFun "inc" [])) "function" = true
  /\ call_updater demo_fn demo_name_in 3 (VFun "inc" []) (array_get (hookStates demo_rt1) 0)
       demo_rt1 = Ok (VNum 1, demo_rt1)
  /\ setState demo_fn demo_name_in 4 0 (VFun "inc" []) demo_rt1
     = rerender demo_fn demo_name_in 3
         (set_hookIndex 0 (set_hookStates (array_set 0 (VNum 1) (hookStates demo_rt1)) demo_rt1)).
Proof.
  destruct (setter_targets_its_slot demo_fn demo_name_in) as (_ & Hlit & Hcall & _).
  split; [reflexivity|].
  split; [exact (Hlit 3%nat 0%nat (VNum 9) demo_rt1 eq_refl)|].
  split; [reflexivity|]. split; [reflexivity|].
  exact (Hcall 3%nat 0%nat (VFun "inc" []) demo_rt1 (VNum 1) demo_rt1 eq_refl eq_refl).
Defined.

Lemma loaders_absorb_faults_witness :
  present (({[ "workoutEntries" := "[null,null]" ]} : gmap string string) !! "workoutEntries")
  = Some "[null,null]"
  /\ loadEntries demo_JSON_parse demo_date_diff demo_localeCompare demo_sort
       {[ "workoutEntries" := "[null,null]" ]} []
     = Normal (VArr [], [("Failed to load entries:", TypeError)])
  /\ present (({[ "workoutPlan" := "{oops" ]} : gmap string string) !! "workoutPlan")
     = Some "{oops"
  /\ loadPlan demo_JSON_parse {[ "workoutPlan" := "{oops" ]} []
     = Normal (VNull, [("Failed to load plan:", VStr "SyntaxError")]).
Proof.
  destruct (loaders_absorb_faults demo_JSON_parse demo_date_diff demo_localeCompare demo_sort)
    as (_ & _ & Hentries & Hplan).
  assert (He : present (({[ "workoutEntries" := "[null,null]" ]} : gmap string string)
                          !! "workoutEntries") = Some "[null,null]") by reflexivity.
  assert (Hp : present (({[ "workoutPlan" := "{oops" ]} : gmap string string)
                          !! "workoutPlan") = Some "{oops") by reflexivity.
  split; [exact He|].
  split.
  { apply (Hentries {[ "workoutEntries" := "[null,null]" ]} [] "[null,null]" TypeError He).
    right. exists (VArr [VNull; VNull]). split; reflexivity. }
  split; [exact Hp|].
  exact (Hplan ({[ "workoutPlan" := "{oops" ]}) [] "{oops" (VStr "SyntaxError")
           Hp eq_refl).
Defined.

(** * Further properties of the renderer *)

Section RendererMore.

Variable fn : fname -> list value -> value -> prog.
Variable name_in : string -> element -> bool.

(** X1: mounting only appends: when it returns, the container has the tag, the
    listeners, the attributes, the style and the fields it had, and the
    children it had, in place, followed by the nodes mounted. *)
Theorem appendElement_only_appends (fuel : nat) (node : value) (c c' : element)
    (rt rt' : runtime) :
  appendElement fn name_in fuel node c rt = Ok (c', rt') ->
  tagName c' = tagName c
  /\ listeners c' = listeners c
  /\ attributes c' = attributes c
  /\ style c' = style c
  /\ properties c' = properties c
  /\ exists ns, childNodes c' = childNodes c ++ ns.
Proof.
  intros H.
  pose proof (appendElement_same_appended fn name_in fuel node c c rt) as Hs.
  rewrite H in Hs. cbn in Hs. destruct Hs as (_ & ns & -> & _).
  repeat split; try reflexivity. now exists ns.
Qed.

(** X2: no child of a node built by createElement is an array, null, false or
    undefined, whatever the arguments were; the tag is stored as given. *)
Theorem createElement_children_invariant (type props : value) (children : list value) :
  get_prop (createElement type props children) "type" = Ok type
  /\ exists flat,
       get_prop (createElement type props children) "children" = Ok (VArr flat)
       /\ Forall (fun child =>
                    Array_isArray child = false /\ is_null child = false
                    /\ is_false child = false /\ is_undefined child = false) flat.
Proof.
  rewrite createElement_eq. split; [reflexivity|].
  exists (flatten_children children). split; [reflexivity|].
  unfold flatten_children.
  induction children as [|child rest IH]; cbn; [constructor|].
  apply Forall_app. split; [|exact IH]. clear IH.
  induction child using value_nested_ind; cbn;
    try (constructor; [now repeat split | constructor]); try constructor.
  - destruct b; constructor; [now repeat split | constructor].
  - induction H as [|x items Hx _ IHitems]; cbn; [constructor|].
    apply Forall_app. split; assumption.
Qed.


(** A node that is neither a string, a number, an array nor an object makes
    mounting throw: null, undefined, a boolean, a function. *)
Lemma appendElement_rejects_non_nodes (fuel : nat) (node : value) (c : element)
    (rt : runtime) :
  match node with
  | VStr _ | VNum _ | VArr _ | VObj _ => True
  | _ => appendElement fn name_in (S fuel) node c rt = Fault
  end.
Proof. destruct node; try exact I; reflexivity. Qed.

Lemma forEachM_Ok_member {A S : Type} (f : A -> S -> outcome S) (l : list A) (x : A) :
  In x l ->
  forall s s', forEachM f l s = Ok s' -> exists s1 s2, f x s1 = Ok s2.
Proof.
  induction l as [|y l IH]; intros Hin s s' H; [destruct Hin|].
  cbn in H. destruct (f y s) as [s1| |] eqn:Hy; cbn in H; try discriminate H.
  destruct Hin as [->|Hin]; [eauto|]. eapply IH; eauto.
Qed.

(** X4: a component that returns null, undefined or a boolean makes render
    throw. *)
Theorem render_rejects_empty_component (fuel : nat) (code : fname)
    (captured : list value) (props : value) (children : list value)
    (container : handle) (rt : runtime) (c : element) (returned : value) (rt1 : runtime) :
  containers rt !! container = Some c ->
  run (fn code captured
         (Object_assign []
            [if truthy props then props else VObj [];
             VObj [("children", VArr (flatten_children children))]]))
      (set_hookIndex 0 rt) = Ok (returned, rt1) ->
  match returned with
  | VNull | VUndefined | VBool _ => True
  | _ => False
  end ->
  render fn name_in (S (S fuel)) (createElement (VFun code captured) props children)
    container rt = Fault.
Proof.
  intros Hc Hrun Hret. rewrite render_mounted, Hc. unfold mounted.
  rewrite createElement_eq, appendElement_unfold.
  cbn [typeof String.eqb Ascii.eqb Bool.eqb orb Array_isArray mkNode get_prop
       get_field bind call_component].
  cbv zeta. rewrite Hrun. cbn [bind fst snd].
  destruct returned; try contradiction; reflexivity.
Qed.

(** X5: the child [true] is kept by createElement, and a host node that has it
    among its children, at any depth of the arguments, never mounts. *)
Theorem true_child_never_mounts (type props : value) (children : list value)
    (fuel : nat) (c : element) (rt : runtime) (r : element * runtime) :
  In (VBool true) (flatten_children children) ->
  String.eqb (typeof type) "function" = false ->
  appendElement fn name_in fuel (createElement type props children) c rt <> Ok r.
Proof.
  intros Hin Htype H. rewrite createElement_eq in H.
  destruct fuel as [|fuel]; [discriminate H|].
  rewrite appendElement_host in H by exact Htype.
  destruct (Object_entries _) as [entries| |]; cbn [bind] in H; try discriminate H.
  destruct (apply_props name_in entries _) as [dom| |]; cbn [bind] in H; try discriminate H.
  destruct (forEachM _ (flatten_children children) (dom, rt)) as [s| |] eqn:Hs;
    cbn [bind] in H; try discriminate H.
  destruct (forEachM_Ok_member _ _ _ Hin _ _ Hs) as (s1 & s2 & Hx).
  destruct fuel; discriminate Hx.
Qed.

(** *** Sessions and containers *)

(** X6: render changes one container only, and only its children: the others
    are as they were, the target keeps everything but its children, and the
    pair (root, container) is retained. *)
Theorem render_touches_its_container_only (fuel : nat) (root : value) (container : handle)
    (rt rt' : runtime) :
  render fn name_in fuel root container rt = Ok rt' ->
  currentRootElement rt' = root
  /\ currentContainer rt' = Some container
  /\ (forall other, other <> container ->
        containers rt' !! other = containers rt !! other)
  /\ exists c ns,
       containers rt !! container = Some c
       /\ containers rt' !! container = Some (set_childNodes ns c).
Proof.
  intros H. rewrite render_mounted in H.
  destruct (containers rt !! container) as [c|] eqn:Hc; [|discriminate H].
  destruct (mounted fn name_in fuel root (set_hookIndex 0 rt)) as [[ns rt1]| |];
    cbn in H; try discriminate H.
  injection H as <-. cbn. split; [reflexivity|]. split; [reflexivity|]. split.
  - intros other Hne. now rewrite lookup_insert_ne.
  - exists c, ns. split; [reflexivity|]. now rewrite lookup_insert_eq.
Qed.




(** X8: after render(root, container) has returned, a setter call with a value
    that is not callable is the write of its slot followed by a render of
    that root into that container. *)
Theorem setter_rerenders_last_render (fuel fuel' : nat) (root : value)
    (container : handle) (rt rt1 : runtime) (stateIndex : nat) (newValue : value) :
  render fn name_in fuel root container rt = Ok rt1 ->
  String.eqb (typeof newValue) "function" = false ->
  setState fn name_in (S fuel') stateIndex newValue rt1
  = render fn name_in fuel' root container
      (set_hookStates (array_set stateIndex newValue (hookStates rt1)) rt1).
Proof.
  intros H Hty.
  destruct (render_touches_its_container_only _ _ _ _ _ H) as (Hroot & Hcont & _).
  rewrite setState_unfold, Hty. cbn [bind]. unfold rerender.
  cbn [currentContainer currentRootElement set_hookIndex set_hookStates].
  rewrite Hcont, Hroot. reflexivity.
Qed.

(** X9: a value that is neither callable nor undefined, once written by a
    setter, is still in its slot when the call returns; every other slot
    that held a value other than undefined still holds it. *)
Theorem setState_literal_survives (fuel : nat) (stateIndex : nat) (newValue : value)
    (rt rt' : runtime) :
  String.eqb (typeof newValue) "function" = false ->
  newValue <> VUndefined ->
  setState fn name_in (S fuel) stateIndex newValue rt = Ok rt' ->
  slot rt' stateIndex = newValue
  /\ forall j, j <> stateIndex -> slot rt j <> VUndefined -> slot rt' j = slot rt j.
Proof.
  intros Hty Hdef H. rewrite setState_unfold, Hty in H. cbn [bind] in H.
  unfold rerender in H. cbn [currentContainer set_hookIndex set_hookStates] in H.
  destruct (currentContainer rt) as [container|]; [|discriminate H].
  rewrite render_mounted in H.
  destruct (containers _ !! container) as [c|]; [|discriminate H].
  match type of H with
  | context [mounted fn name_in fuel ?root ?start] =>
      destruct (mounted fn name_in fuel root start) as [[ns rt1]| |] eqn:Hm
  end; cbn in H; try discriminate H.
  injection H as <-.
  destruct (framed_mounted fn name_in fuel _ _ _ _ Hm) as (_ & _ & Hkeep).
  unfold slot in *. cbn in *. split.
  - rewrite Hkeep; rewrite array_get_set_eq; [reflexivity | exact Hdef].
  - intros j Hj Hslot. rewrite Hkeep; rewrite array_get_set_ne by congruence;
      [reflexivity | exact Hslot].
Qed.

(** X10: slots are told apart by call order only. Two hook calls seed two fresh
    slots with initial values a and b; if on the next pass the call that
    came second comes first, it reads a, and its setter writes the slot of
    the first. *)
Theorem hook_order_decides_the_slot (a b b' : value) (rt : runtime) :
  slot rt (hookIndex rt) = VUndefined ->
  slot rt (S (hookIndex rt)) = VUndefined ->
  a <> VUndefined ->
  let first := useState a rt in
  let second := useState b (snd first) in
  let next := set_hookIndex (hookIndex rt) (snd second) in
  slot next (hookIndex rt) = a
  /\ slot next (S (hookIndex rt)) = b
  /\ fst (useState b' next) = (a, snd (fst first)).
Proof.
  intros H0 H1 Ha. cbv zeta. unfold slot in *.
  rewrite (useState_seeds a rt H0). cbn [fst snd].
  assert (H1' : array_get (array_set (hookIndex rt) a (hookStates rt)) (S (hookIndex rt))
                = VUndefined).
  { rewrite array_get_set_ne by lia. exact H1. }
  rewrite useState_seeds by exact H1'.
  cbn [fst snd hookStates hookIndex set_hookIndex set_hookStates].
  assert (Hfirst : array_get
                     (array_set (S (hookIndex rt)) b
                        (array_set (hookIndex rt) a (hookStates rt))) (hookIndex rt) = a).
  { rewrite array_get_set_ne by lia. apply array_get_set_eq. }
  split; [exact Hfirst|]. split; [apply array_get_set_eq|].
  rewrite useState_reads by (cbn; rewrite Hfirst; exact Ha).
  cbn. now rewrite Hfirst.
Qed.

(** *** Props *)

Lemma forEachM_app {A S : Type} (f : A -> S -> outcome S) (l1 l2 : list A) (s : S) :
  forEachM f (l1 ++ l2) s = let* s1 := forEachM f l1 s in forEachM f l2 s1.
Proof.
  revert s. induction l1 as [|x l1 IH]; intros s; cbn; [reflexivity|].
  destruct (f x s) as [s'| |]; cbn; [apply IH | reflexivity | reflexivity].
Qed.

Lemma apply_prop_ends (name : string) (v : value) (dom : element) :
  apply_prop name_in name v dom <> OutOfFuel.
Proof.
  unfold apply_prop.
  repeat match goal with
         | |- context [if ?b then _ else _] => destruct b
         end; try discriminate.
  destruct v; cbn; discriminate.
Qed.

Lemma apply_props_ends (entries : list (string * value)) :
  forall dom, apply_props name_in entries dom <> OutOfFuel.
Proof.
  induction entries as [|kv entries IH]; intros dom; cbn; [discriminate|].
  pose proof (apply_prop_ends (fst kv) (snd kv) dom) as Hkv.
  unfold apply_props in *. cbn.
  destruct (apply_prop name_in (fst kv) (snd kv) dom) as [dom'| |]; cbn;
    [apply IH | discriminate | contradiction].
Qed.

Lemma apply_prop_skips (name : string) (v : value) (dom : element) :
  (v = VUndefined /\ name <> "className")
  \/ (v = VNull /\ name <> "className" /\ name <> "style") ->
  apply_prop name_in name v dom = Ok dom.
Proof.
  intros H. unfold apply_prop.
  assert (Hty : String.eqb (typeof v) "function" = false)
    by (destruct H as [[-> _]|[-> _]]; reflexivity).
  rewrite Hty, andb_false_r.
  assert (Hcls : String.eqb name "className" = false)
    by (apply String.eqb_neq; destruct H as [[_ ?]|[_ [? _]]]; assumption).
  rewrite Hcls.
  assert (Hsty : String.eqb name "style" && String.eqb (typeof v) "object" = false).
  { destruct H as [[-> _]|[-> [_ Hs]]]; cbn.
    - apply andb_false_r.
    - apply String.eqb_neq in Hs. now rewrite Hs. }
  rewrite Hsty.
  assert (Hnull : negb (is_null v) && negb (is_undefined v) = false)
    by (destruct H as [[-> _]|[-> _]]; reflexivity).
  rewrite Hnull. now destruct (negb (String.eqb name "children")).
Qed.

(** X11: what a null or undefined prop does on a host node. Under a name other
    than className and style it is as if the prop were absent; so is
    style: undefined. But style: null makes mounting throw, and className
    is written to the class attribute whatever its value, null and
    undefined included. *)
Theorem null_props_on_host_nodes (type : value) (fuel : nat) (children : value)
    (c : element) (rt : runtime) :
  String.eqb (typeof type) "function" = false ->
  (forall before after name v,
     (v = VUndefined /\ name <> "className")
     \/ (v = VNull /\ name <> "className" /\ name <> "style") ->
     appendElement fn name_in (S fuel)
       (mkNode type (VObj (before ++ (name, v) :: after)) children) c rt
     = appendElement fn name_in (S fuel)
         (mkNode type (VObj (before ++ after)) children) c rt)
  /\ (forall fields,
        In ("style", VNull) fields ->
        appendElement fn name_in (S fuel) (mkNode type (VObj fields) children) c rt = Fault)
  /\ (forall v dom,
        apply_prop name_in "className" v dom = Ok (setAttribute "class" v dom)).
Proof.
  intros Htype.
  assert (Hhost : forall fields,
            appendElement fn name_in (S fuel) (mkNode type (VObj fields) children) c rt
            = let* dom := apply_props name_in fields (document_createElement type) in
              let* s := Array_forEach children
                          (fun child s => appendElement fn name_in fuel child (fst s) (snd s))
                          (dom, rt) in
              Ok (appendChild c (ElementNode (fst s)), snd s)).
  { intros fields. rewrite appendElement_unfold. cbn. rewrite Htype. reflexivity. }
  split; [|split].
  - intros before after name v Hv. rewrite !Hhost. unfold apply_props.
    rewrite !forEachM_app. cbn [forEachM fst snd].
    destruct (forEachM _ before _) as [dom1| |]; cbn [bind]; try reflexivity.
    pose proof (apply_prop_skips name v dom1 Hv) as Hskip.
    cbn [fst snd]. rewrite Hskip. reflexivity.
  - intros fields Hin. rewrite Hhost.
    assert (Hf : apply_props name_in fields (document_createElement type) = Fault).
    { generalize (document_createElement type).
      induction fields as [|kv fields IH]; intros dom; [destruct Hin|].
      unfold apply_props in *. cbn.
      destruct Hin as [->|Hin].
      - reflexivity.
      - pose proof (apply_prop_ends (fst kv) (snd kv) dom) as Hkv.
        destruct (apply_prop name_in (fst kv) (snd kv) dom) as [dom'| |]; cbn;
          [now apply IH | reflexivity | contradiction]. }
    rewrite Hf. reflexivity.
  - intros v dom. unfold apply_prop. cbn.
    now destruct (String.eqb (typeof v) "function").
Qed.

(** *** The argument of a component *)

Lemma get_set_field_eq (k : string) (v : value) (fields : list (string * value)) :
  get_field k (set_field k v fields) = v.
Proof.
  induction fields as [|[k' v'] fields IH]; cbn.
  - now rewrite String.eqb_refl.
  - destruct (String.eqb k' k) eqn:E; cbn; rewrite E; [reflexivity | exact IH].
Qed.

Lemma get_set_field_ne (k k' : string) (v : value) (fields : list (string * value)) :
  k <> k' -> get_field k (set_field k' v fields) = get_field k fields.
Proof.
  intros Hne. induction fields as [|[k0 v0] fields IH]; cbn.
  - apply String.eqb_neq in Hne. rewrite String.eqb_sym in Hne. now rewrite Hne.
  - destruct (String.eqb k0 k') eqn:E; cbn.
    + apply String.eqb_eq in E. subst k0.
      apply String.eqb_neq in Hne. rewrite String.eqb_sym in Hne. now rewrite Hne.
    + destruct (String.eqb k0 k); [reflexivity | exact IH].
Qed.

Lemma get_field_absent (k : string) (fields : list (string * value)) :
  ~ In k (map fst fields) -> get_field k fields = VUndefined.
Proof.
  induction fields as [|[k0 v0] fields IH]; cbn; intros Hnot; [reflexivity|].
  destruct (String.eqb k0 k) eqn:E.
  - apply String.eqb_eq in E. tauto.
  - apply IH. tauto.
Qed.

Lemma get_field_copy (k : string) (fields : list (string * value)) :
  NoDup (map fst fields) ->
  forall acc,
    get_field k (forEach (fun kv t => set_field (fst kv) (snd kv) t) fields acc)
    = if existsb (String.eqb k) (map fst fields) then get_field k fields
      else get_field k acc.
Proof.
  induction fields as [|[k0 v0] fields IH]; intros Hnd acc; cbn; [reflexivity|].
  apply NoDup_cons in Hnd. destruct Hnd as [Hnot Hnd].
  rewrite IH by exact Hnd. rewrite (String.eqb_sym k0 k).
  destruct (String.eqb k k0) eqn:E; cbn.
  - apply String.eqb_eq in E. subst k0.
    assert (Hex : existsb (String.eqb k) (map fst fields) = false).
    { apply not_true_is_false. intros Hex. apply existsb_exists in Hex.
      destruct Hex as (x & Hin & Hx). apply String.eqb_eq in Hx. subst x.
      apply Hnot. now apply list_elem_of_In. }
    rewrite Hex. apply get_set_field_eq.
  - destruct (existsb (String.eqb k) (map fst fields)); [reflexivity|].
    apply get_set_field_ne. now apply String.eqb_neq.
Qed.

(** X12: a component is called with one object: the props of the node, each
    under its name, except that [children] always holds the children of the
    node, whatever the props carry under that name. *)
Theorem component_receives_children (fuel : nat) (code : fname) (captured : list value)
    (fields : list (string * value)) (children : value) (c : element) (rt : runtime) :
  NoDup (map fst fields) ->
  exists arg,
    appendElement fn name_in (S fuel)
      (mkNode (VFun code captured) (VObj fields) children) c rt
    = (let* r := run (fn code captured (VObj arg)) rt in
       appendElement fn name_in fuel (fst r) c (snd r))
    /\ get_field "children" arg = children
    /\ forall name, name <> "children" -> get_field name arg = get_field name fields.
Proof.
  intros Hnd.
  exists (set_field "children" children
            (forEach (fun kv t => set_field (fst kv) (snd kv) t) fields [])).
  split; [|split].
  - rewrite appendElement_unfold. reflexivity.
  - apply get_set_field_eq.
  - intros name Hne. rewrite get_set_field_ne by exact Hne.
    rewrite (get_field_copy name fields Hnd []).
    destruct (existsb (String.eqb name) (map fst fields)) eqn:Hex; [reflexivity|].
    symmetry. apply get_field_absent. intros Hin.
    apply not_true_iff_false in Hex. apply Hex. apply existsb_exists.
    exists name. split; [exact Hin | apply String.eqb_refl].
Qed.

End RendererMore.

(** * Further properties of the persistence functions *)

Lemma same_value_zero_eq (a b : value) : same_value_zero a b = true -> a = b.
Proof.
  destruct a, b; cbn; intros H; try discriminate H; try reflexivity.
  - apply Bool.eqb_prop in H. now subst.
  - apply Z.eqb_eq in H. now subst.
  - apply String.eqb_eq in H. now subst.
Qed.

Lemma same_value_zero_string (s : string) : same_value_zero (VStr s) (VStr s) = true.
Proof. cbn. apply String.eqb_refl. Qed.

Lemma set_has_In (x : value) (members : list value) :
  set_has x members = true -> In x members.
Proof.
  induction members as [|y members IH]; cbn; intros H; [discriminate H|].
  apply orb_true_iff in H. destruct H as [H|H].
  - left. now apply same_value_zero_eq.
  - right. now apply IH.
Qed.

Lemma set_has_occurrences (x : value) (members : list value) :
  set_has x members = false -> occurrences x members = 0%nat.
Proof.
  unfold occurrences. induction members as [|y members IH]; intros H; [reflexivity|].
  cbn [set_has] in H. apply orb_false_iff in H. destruct H as [Hy H].
  rewrite filter_cons. destruct (decide (same_value_zero y x = true)); [congruence|].
  now apply IH.
Qed.

Lemma occurrences_app (x : value) (l1 l2 : list value) :
  occurrences x (l1 ++ l2) = (occurrences x l1 + occurrences x l2)%nat.
Proof. unfold occurrences. now rewrite filter_app, length_app. Qed.

Lemma occurrences_In (x : value) (l : list value) :
  same_value_zero x x = true -> In x l -> (1 <= occurrences x l)%nat.
Proof.
  intros Hx. unfold occurrences. induction l as [|y l IH]; intros Hin; [destruct Hin|].
  rewrite filter_cons. destruct Hin as [->|Hin].
  - destruct (decide (same_value_zero x x = true)); [cbn; lia | contradiction].
  - destruct (decide (same_value_zero y x = true)); cbn; [lia | now apply IH].
Qed.

Lemma occurrences_Permutation (x : value) (l l' : list value) :
  Permutation l l' -> occurrences x l = occurrences x l'.
Proof. intros H. unfold occurrences. now rewrite H. Qed.

Lemma set_add_spec (x : value) (members : list value) :
  (forall y, In y (set_add x members) <-> In y members \/ y = x)
  /\ (forall y, (occurrences y members <= 1)%nat -> (occurrences y (set_add x members) <= 1)%nat).
Proof.
  unfold set_add. destruct (set_has x members) eqn:Hhas; split.
  - intros y. split; [auto|]. intros [H| ->]; [exact H | now apply set_has_In].
  - auto.
  - intros y. rewrite in_app_iff. cbn. intuition (subst; auto).
  - intros y Hy. rewrite occurrences_app.
    unfold occurrences at 2. rewrite filter_cons, filter_nil.
    destruct (decide (same_value_zero x y = true)) as [Hxy|Hxy]; cbn; [|lia].
    apply same_value_zero_eq in Hxy. subst y.
    rewrite (set_has_occurrences _ _ Hhas). lia.
Qed.



Section StorageFacts.

Variable JSON_parse : string -> completion value.
Variable JSON_stringify : value -> completion (option string).
Variable fits : string -> string -> gmap string string -> bool.
Variable date_diff : value -> value -> option Z.
Variable localeCompare : string -> value -> Z.
Variable Array_sort :
  (value -> value -> completion (option Z)) -> list value -> completion (list value).
Variable Array_sort_default : list value -> completion (list value).

(** X13: the three save functions never throw: each either writes its record
    (the text of the value, or the word undefined when the value has no
    text) and leaves the log alone, or leaves the store as it was and logs
    the fault. *)
Theorem savers_absorb_faults (v : value) (localStorage : gmap string string)
    (log : console) :
  written_or_logged JSON_stringify fits "workoutEntries" "Failed to save entries:" v
    localStorage log (saveEntries JSON_stringify fits v localStorage log)
  /\ (truthy v = true ->
      written_or_logged JSON_stringify fits "workoutPlan" "Failed to save plan:" v
        localStorage log (savePlan JSON_stringify fits v localStorage log))
  /\ written_or_logged JSON_stringify fits "exerciseBank" "Failed to save exercise bank:" v
       localStorage log (saveExerciseBank JSON_stringify fits v localStorage log).
Proof.
  unfold written_or_logged, saveEntries, savePlan, saveExerciseBank, setItem.
  split; [|split]; try intros ->;
    (destruct (JSON_stringify v) as [text|err]; cbn; [|right; eauto];
     destruct (fits _ (default "undefined" text) localStorage) eqn:Hfits; cbn;
     [left; eauto | right; eauto]).
Qed.

(** X14: saving a plan and loading it gives the plan back, provided the store
    takes the text and the text parses back to the plan. *)
Theorem savePlan_then_loadPlan (plan : value) (text : string)
    (localStorage : gmap string string) (log : console) :
  truthy plan = true ->
  JSON_stringify plan = Normal (Some text) ->
  text <> "" ->
  fits "workoutPlan" text localStorage = true ->
  JSON_parse text = Normal plan ->
  exists stored,
    savePlan JSON_stringify fits plan localStorage log = Normal (stored, log)
    /\ loadPlan JSON_parse stored log = Normal (plan, log).
Proof.
  intros Htruthy Hs Hne Hfits Hp.
  exists (<["workoutPlan" := text]> localStorage). split.
  - unfold savePlan, setItem. rewrite Htruthy, Hs. cbn. rewrite Hfits. reflexivity.
  - unfold loadPlan. rewrite lookup_insert_eq. cbn [present].
    apply String.eqb_neq in Hne. rewrite Hne, Hp. reflexivity.
Qed.

(** X15: saving a falsy plan removes the record and logs nothing; loading then
    gives null and logs nothing, whatever was stored before. *)
Theorem savePlan_clears (plan : value) (localStorage : gmap string string) (log : console) :
  truthy plan = false ->
  savePlan JSON_stringify fits plan localStorage log
    = Normal (delete "workoutPlan" localStorage, log)
  /\ loadPlan JSON_parse (delete "workoutPlan" localStorage) log = Normal (VNull, log).
Proof.
  intros Hfalsy. split.
  - unfold savePlan. rewrite Hfalsy. reflexivity.
  - unfold loadPlan. rewrite lookup_delete_eq. reflexivity.
Qed.

Lemma written_or_logged_frame (key message : string) (v : value)
    (localStorage stored : gmap string string) (log log' : console) :
  written_or_logged JSON_stringify fits key message v localStorage log
    (Normal (stored, log')) ->
  forall other, other <> key -> stored !! other = localStorage !! other.
Proof.
  intros [(text & _ & _ & H)|(err & H)] other Hne; injection H as -> ->.
  - now rewrite lookup_insert_ne.
  - reflexivity.
Qed.

(** X16: each save function touches its own record only; in particular saving a
    plan, falsy or not, leaves what loadEntries returns as it was, and
    saving entries leaves what loadPlan returns as it was. *)
Theorem savers_touch_their_record_only (v : value) (localStorage stored : gmap string string)
    (log log' : console) :
  (saveEntries JSON_stringify fits v localStorage log = Normal (stored, log') ->
   (forall other, other <> "workoutEntries" -> stored !! other = localStorage !! other)
   /\ forall log0, loadPlan JSON_parse stored log0 = loadPlan JSON_parse localStorage log0)
  /\ (savePlan JSON_stringify fits v localStorage log = Normal (stored, log') ->
      (forall other, other <> "workoutPlan" -> stored !! other = localStorage !! other)
      /\ forall log0,
           loadEntries JSON_parse date_diff localeCompare Array_sort stored log0
           = loadEntries JSON_parse date_diff localeCompare Array_sort localStorage log0)
  /\ (saveExerciseBank JSON_stringify fits v localStorage log = Normal (stored, log') ->
      forall other, other <> "exerciseBank" -> stored !! other = localStorage !! other).
Proof.
  destruct (savers_absorb_faults v localStorage log) as (He & Hp & Hb).
  split; [|split].
  - intros H. rewrite H in He.
    pose proof (written_or_logged_frame _ _ _ _ _ _ _ He) as Hframe.
    split; [exact Hframe|]. intros log0. unfold loadPlan.
    now rewrite Hframe by discriminate.
  - intros H.
    assert (Hframe : forall other, other <> "workoutPlan" ->
                                   stored !! other = localStorage !! other).
    { destruct (truthy v) eqn:Ht.
      - specialize (Hp eq_refl). rewrite H in Hp.
        exact (written_or_logged_frame _ _ _ _ _ _ _ Hp).
      - unfold savePlan in H. rewrite Ht in H.
        cbn [try_catch and_then snd fst] in H. unfold removeItem in H.
        injection H as <- <-.
        intros other Hne. now rewrite lookup_delete_ne. }
    split; [exact Hframe|]. intros log0. unfold loadEntries.
    now rewrite Hframe by discriminate.
  - intros H. rewrite H in Hb. exact (written_or_logged_frame _ _ _ _ _ _ _ Hb).
Qed.


(** *** The exercise bank *)




Lemma add_exercises_spec (items : list value) :
  forall members names,
    add_exercises items members = Normal names ->
    (forall y, In y names <->
               In y members \/ exists e, In e items /\ member e "exercise" = Normal y)
    /\ ((forall y, (occurrences y members <= 1)%nat) ->
        forall y, (occurrences y names <= 1)%nat).
Proof.
  induction items as [|e items IH]; intros members names H; cbn in H.
  - injection H as <-. split; [|auto]. intros y. split; [auto|].
    intros [Hy|(e & [] & _)]. exact Hy.
  - destruct (member e "exercise") as [exercise|err] eqn:He; cbn in H; [|discriminate H].
    destruct (IH _ _ H) as [Hin Hocc].
    destruct (set_add_spec exercise members) as [Hadd Haddocc]. split.
    + intros y. rewrite Hin, Hadd. split.
      * intros [[Hy| ->]|(e' & He' & Hy)]; [now left | |].
        -- right. exists e. split; [now left | exact He].
        -- right. exists e'. split; [now right | exact Hy].
      * intros [Hy|(e' & [<-|He'] & Hy)]; [now left; left | |].
        -- left. right. congruence.
        -- right. now exists e'.
    + intros Hm. apply Hocc. intros y. apply Haddocc, Hm.
Qed.

(** X20: when getUniqueExercises returns, and the sort it uses rearranges without
    adding or dropping, the list returned holds exactly the values the
    entries carry under [exercise], each once. It throws when an entry is
    null or undefined, and when it is not given an array. *)
Theorem getUniqueExercises_spec (items : list value) :
  (forall l l', Array_sort_default l = Normal l' -> Permutation l l') ->
  (forall result,
     getUniqueExercises Array_sort_default (VArr items) = Normal result ->
     exists names,
       result = VArr names
       /\ (forall y, In y names <->
                     exists e, In e items /\ member e "exercise" = Normal y)
       /\ (forall y, (occurrences y names <= 1)%nat))
  /\ ((In VNull items \/ In VUndefined items) ->
      getUniqueExercises Array_sort_default (VArr items) = Throw TypeError).
Proof.
  intros Hsort. split.
  - intros result H. unfold getUniqueExercises in H.
    destruct (add_exercises items []) as [members|err] eqn:Hadd; cbn in H;
      [|discriminate H].
    destruct (Array_sort_default members) as [sorted|err] eqn:Hs; cbn in H;
      [|discriminate H].
    injection H as <-. apply Hsort in Hs.
    destruct (add_exercises_spec _ _ _ Hadd) as [Hin Hocc].
    exists sorted. split; [reflexivity|]. split.
    + intros y. transitivity (In y members).
      * split; intros Hy; apply list_elem_of_In; [rewrite Hs | rewrite <- Hs];
          now apply list_elem_of_In.
      * rewrite Hin. split; [intros [[]|Hy]; exact Hy | auto].
    + intros y. rewrite <- (occurrences_Permutation y _ _ Hs). apply Hocc.
      intros z. cbn. lia.
  - intros Hbad. unfold getUniqueExercises.
    assert (Hthrow : forall members, add_exercises items members = Throw TypeError).
    { induction items as [|e items IH]; intros members; [destruct Hbad as [[]|[]]|].
      cbn. destruct (member e "exercise") as [exercise|err] eqn:He; cbn.
      - apply IH. destruct Hbad as [[->|H]|[->|H]]; try discriminate He; auto.
      - destruct e; cbn in He; congruence. }
    now rewrite Hthrow.
Qed.

End StorageFacts.

(** ** The further properties at work *)

Lemma demo_insert_Permutation (cmp : value -> value -> completion (option Z)) (x : value) :
  forall l l', demo_insert cmp x l = Normal l' -> Permutation (x :: l) l'.
Proof.
  induction l as [|y l IH]; intros l' H; cbn in H.
  - now injection H as <-.
  - destruct (cmp x y) as [[z|]|err]; cbn in H; try discriminate H.
    + destruct (z <=? 0)%Z; [now injection H as <-|].
      destruct (demo_insert cmp x l) as [l''|err] eqn:Hi; cbn in H; try discriminate H.
      injection H as <-. rewrite <- (IH _ eq_refl). apply perm_swap.
    + now injection H as <-.
Qed.

Lemma demo_sort_Permutation (cmp : value -> value -> completion (option Z)) :
  forall l l', demo_sort cmp l = Normal l' -> Permutation l l'.
Proof.
  induction l as [|x l IH]; intros l' H; cbn in H.
  - now injection H as <-.
  - destruct (demo_sort cmp l) as [sorted|err] eqn:Hs; cbn in H; try discriminate H.
    rewrite (IH _ eq_refl). exact (demo_insert_Permutation cmp x _ _ H).
Qed.

Lemma demo_sort_default_Permutation (l l' : list value) :
  demo_sort_default l = Normal l' -> Permutation l l'.
Proof. apply demo_sort_Permutation. Qed.

Lemma appendElement_only_appends_witness :
  appendElement demo_fn demo_name_in 3 demo_root
    (set_childNodes [TextNode "old"] demo_container) demo_rt0
  = Ok (set_childNodes (TextNode "old" :: demo_shown VNull 0) demo_container,
        mkRuntime [VNum 0] 1 VNull None (containers demo_rt0))
  /\ exists ns,
       TextNode "old" :: demo_shown VNull 0 = [TextNode "old"] ++ ns.
Proof.
  assert (H : appendElement demo_fn demo_name_in 3 demo_root
                (set_childNodes [TextNode "old"] demo_container) demo_rt0
              = Ok (set_childNodes (TextNode "old" :: demo_shown VNull 0) demo_container,
                    mkRuntime [VNum 0] 1 VNull None (containers demo_rt0)))
    by reflexivity.
  split; [exact H|].
  destruct (appendElement_only_appends demo_fn demo_name_in _ _ _ _ _ _ H)
    as (_ & _ & _ & _ & _ & ns & Hns).
  exists ns. exact Hns.
Defined.


Lemma render_rejects_empty_component_witness :
  containers demo_rt0 !! 0%nat = Some demo_container
  /\ render empty_fn demo_name_in 2 (createElement (VFun "Nothing" []) VNull []) 0 demo_rt0
     = Fault.
Proof.
  split; [reflexivity|].
  exact (render_rejects_empty_component empty_fn demo_name_in 0 "Nothing" [] VNull [] 0
           demo_rt0 demo_container VNull (set_hookIndex 0 demo_rt0) eq_refl eq_refl I).
Defined.

Lemma true_child_never_mounts_witness :
  In (VBool true) (flatten_children [VStr "a"; VArr [VBool true]])
  /\ appendElement demo_fn demo_name_in 5
       (createElement (VStr "p") VNull [VStr "a"; VArr [VBool true]])
       demo_container demo_rt0
     <> Ok (demo_container, demo_rt0).
Proof.
  assert (Hin : In (VBool true) (flatten_children [VStr "a"; VArr [VBool true]]))
    by (right; left; reflexivity).
  split; [exact Hin|].
  exact (true_child_never_mounts demo_fn demo_name_in (VStr "p") VNull
           [VStr "a"; VArr [VBool true]] 5 demo_container demo_rt0
           (demo_container, demo_rt0) Hin eq_refl).
Defined.

Lemma render_touches_its_container_only_witness :
  render demo_fn demo_name_in 3 demo_root 0 demo_rt0 = Ok demo_rt1
  /\ currentRootElement demo_rt1 = demo_root
  /\ currentContainer demo_rt1 = Some 0%nat
  /\ containers demo_rt1 !! 1%nat = containers demo_rt0 !! 1%nat.
Proof.
  destruct (render_touches_its_container_only demo_fn demo_name_in 3 demo_root 0
              demo_rt0 demo_rt1 demo_first_render) as (Hroot & Hcont & Hother & _).
  split; [exact demo_first_render|]. split; [exact Hroot|]. split; [exact Hcont|].
  apply Hother. discriminate.
Defined.


Lemma setter_rerenders_last_render_witness :
  render demo_fn demo_name_in 3 demo_root 0 demo_rt0 = Ok demo_rt1
  /\ String.eqb (typeof (VNum 9)) "function" = false
  /\ setState demo_fn demo_name_in 4 0 (VNum 9) demo_rt1
     = render demo_fn demo_name_in 3 demo_root 0
         (set_hookStates (array_set 0 (VNum 9) (hookStates demo_rt1)) demo_rt1).
Proof.
  split; [exact demo_first_render|]. split; [reflexivity|].
  exact (setter_rerenders_last_render demo_fn demo_name_in 3 3 demo_root 0 demo_rt0
           demo_rt1 0 (VNum 9) demo_first_render eq_refl).
Defined.

Lemma setState_literal_survives_witness :
  exists rt2,
    setState demo_fn demo_name_in 4 0 (VNum 9) demo_rt1 = Ok rt2
    /\ VNum 9 <> VUndefined
    /\ slot rt2 0 = VNum 9.
Proof.
  assert (H : exists rt2, setState demo_fn demo_name_in 4 0 (VNum 9) demo_rt1 = Ok rt2)
    by (vm_compute; eexists; reflexivity).
  destruct H as (rt2 & H). exists rt2. split; [exact H|].
  assert (Hdef : VNum 9 <> VUndefined) by discriminate.
  split; [exact Hdef|].
  exact (proj1 (setState_literal_survives demo_fn demo_name_in 3 0 (VNum 9) demo_rt1 rt2
                  eq_refl Hdef H)).
Defined.

Lemma hook_order_decides_the_slot_witness :
  slot demo_rt0 0 = VUndefined
  /\ slot demo_rt0 1 = VUndefined
  /\ VStr "log" <> VUndefined
  /\ fst (useState (VStr "other")
            (set_hookIndex 0
               (snd (useState (VNum 7) (snd (useState (VStr "log") demo_rt0))))))
     = (VStr "log", VSetter 0).
Proof.
  assert (Hdef : VStr "log" <> VUndefined) by discriminate.
  split; [reflexivity|]. split; [reflexivity|]. split; [exact Hdef|].
  exact (proj2 (proj2 (hook_order_decides_the_slot (VStr "log") (VNum 7) (VStr "other")
                         demo_rt0 eq_refl eq_refl Hdef))).
Defined.

Lemma null_props_on_host_nodes_witness :
  String.eqb (typeof (VStr "input")) "function" = false
  /\ appendElement demo_fn demo_name_in 1
       (mkNode (VStr "input") (VObj [("type", VStr "date"); ("max", VUndefined)]) (VArr []))
       demo_container demo_rt0
     = appendElement demo_fn demo_name_in 1
         (mkNode (VStr "input") (VObj [("type", VStr "date")]) (VArr []))
         demo_container demo_rt0
  /\ appendElement demo_fn demo_name_in 1
       (mkNode (VStr "input") (VObj [("style", VNull)]) (VArr []))
       demo_container demo_rt0
     = Fault.
Proof.
  destruct (null_props_on_host_nodes demo_fn demo_name_in (VStr "input") 0 (VArr [])
              demo_container demo_rt0 eq_refl) as (Hskip & Hstyle & _).
  split; [reflexivity|]. split.
  - apply (Hskip [("type", VStr "date")] [] "max" VUndefined).
    left. split; [reflexivity | discriminate].
  - apply Hstyle. left. reflexivity.
Defined.

Lemma component_receives_children_witness :
  NoDup (map fst [("title", VStr "t"); ("children", VStr "mine")])
  /\ exists arg,
       get_field "children" arg = VArr [VStr "given"]
       /\ get_field "title" arg = VStr "t".
Proof.
  assert (Hnd : NoDup (map fst [("title", VStr "t"); ("children", VStr "mine")])).
  { cbn. apply NoDup_cons. split.
    - intros Hin. apply list_elem_of_In in Hin. destruct Hin as [Hin|[]]. discriminate Hin.
    - apply NoDup_cons. split; [|apply NoDup_nil_2].
      intros Hin. apply list_elem_of_In in Hin. destruct Hin. }
  split; [exact Hnd|].
  destruct (component_receives_children demo_fn demo_name_in 1 "Counter" []
              [("title", VStr "t"); ("children", VStr "mine")] (VArr [VStr "given"])
              demo_container demo_rt0 Hnd) as (arg & _ & Hchildren & Hother).
  exists arg. split; [exact Hchildren|].
  rewrite (Hother "title") by discriminate. reflexivity.
Defined.

Lemma savers_absorb_faults_witness :
  truthy (VArr []) = true
  /\ written_or_logged demo_JSON_stringify demo_fits "workoutPlan" "Failed to save plan:"
       (VArr []) ∅ [] (savePlan demo_JSON_stringify demo_fits (VArr []) ∅ []).
Proof.
  split; [reflexivity|].
  exact (proj1 (proj2 (savers_absorb_faults demo_JSON_stringify demo_fits (VArr []) ∅ []))
           eq_refl).
Defined.

Lemma savePlan_then_loadPlan_witness :
  truthy (VArr []) = true
  /\ demo_JSON_stringify (VArr []) = Normal (Some "[]")
  /\ "[]" <> ""
  /\ demo_fits "workoutPlan" "[]" ∅ = true
  /\ demo_JSON_parse "[]" = Normal (VArr [])
  /\ exists stored,
       savePlan demo_JSON_stringify demo_fits (VArr []) ∅ [] = Normal (stored, [])
       /\ loadPlan demo_JSON_parse stored [] = Normal (VArr [], []).
Proof.
  assert (Hne : "[]" <> "") by discriminate.
  assert (Hfits : demo_fits "workoutPlan" "[]" ∅ = true) by reflexivity.
  split; [reflexivity|]. split; [reflexivity|]. split; [exact Hne|].
  split; [exact Hfits|]. split; [reflexivity|].
  exact (savePlan_then_loadPlan demo_JSON_parse demo_JSON_stringify demo_fits (VArr []) "[]"
           ∅ [] eq_refl eq_refl Hne Hfits eq_refl).
Defined.

Lemma savePlan_clears_witness :
  truthy VNull = false
  /\ loadPlan demo_JSON_parse (delete "workoutPlan" {[ "workoutPlan" := "[]" ]}) []
     = Normal (VNull, []).
Proof.
  split; [reflexivity|].
  exact (proj2 (savePlan_clears demo_JSON_parse demo_JSON_stringify demo_fits VNull
                  {[ "workoutPlan" := "[]" ]} [] eq_refl)).
Defined.

Lemma savers_touch_their_record_only_witness :
  savePlan demo_JSON_stringify demo_fits VNull {[ "workoutEntries" := "[]" ]} []
  = Normal (delete "workoutPlan" {[ "workoutEntries" := "[]" ]}, [])
  /\ loadEntries demo_JSON_parse demo_date_diff demo_localeCompare demo_sort
       (delete "workoutPlan" {[ "workoutEntries" := "[]" ]}) []
     = loadEntries demo_JSON_parse demo_date_diff demo_localeCompare demo_sort
         {[ "workoutEntries" := "[]" ]} [].
Proof.
  assert (H : savePlan demo_JSON_stringify demo_fits VNull {[ "workoutEntries" := "[]" ]} []
              = Normal (delete "workoutPlan" {[ "workoutEntries" := "[]" ]}, []))
    by reflexivity.
  split; [exact H|].
  exact (proj2 (proj1 (proj2 (savers_touch_their_record_only demo_JSON_parse
                                demo_JSON_stringify demo_fits demo_date_diff
                                demo_localeCompare demo_sort VNull _ _ _ _)) H) []).
Defined.




Lemma getUniqueExercises_spec_witness :
  getUniqueExercises demo_sort_default
    (VArr [VObj [("exercise", VStr "Planking")]; VObj [("exercise", VStr "Deadbug")];
           VObj [("exercise", VStr "Planking")]])
  = Normal (VArr [VStr "Deadbug"; VStr "Planking"])
  /\ (occurrences (VStr "Planking") [VStr "Deadbug"; VStr "Planking"] <= 1)%nat.
Proof.
  assert (H : getUniqueExercises demo_sort_default
                (VArr [VObj [("exercise", VStr "Planking")];
                       VObj [("exercise", VStr "Deadbug")];
                       VObj [("exercise", VStr "Planking")]])
              = Normal (VArr [VStr "Deadbug"; VStr "Planking"])) by reflexivity.
  split; [exact H|].
  destruct (proj1 (getUniqueExercises_spec demo_sort_default _ demo_sort_default_Permutation)
              _ H) as (names & Hnames & _ & Hocc).
  injection Hnames as <-. apply Hocc.
Defined.
